(** * Portfolio site: scroll tracker, article feed and date utilities

    A shallow embedding of the logic of the portfolio repository:

    - [DateUtils]: [src/utils/dateUtils.ts] (the cached current date and
      [calculateYearsOfExperience]);
    - [Portfolio]: the [SinglePagePortfolio] component in its two versions
      (the "story" page with the article feed, and the earlier page
      without it): [handleScroll], [throttledScroll] and the effect
      cleanup, [scrollToSection], [fetchArticles].

    Conventions.  JavaScript numbers that hold whole quantities (years,
    months, milliseconds, [offsetTop], [offsetHeight], [innerHeight]) are
    [Z]; [window.scrollY], which browsers report with a fractional part,
    and the probe position derived from it are exact rationals [Q].
    Strings are [string]; the document is a finite map from element ids to
    elements.  React state is a record, each hook setter an update of one
    field, taken over while the component is mounted. *)

From Stdlib Require Import ZArith QArith Ascii String Lia.
From stdpp Require Import base option list strings gmap.

Local Open Scope Z_scope.

(* ===================================================================== *)
(** ** src/utils/dateUtils.ts *)
(* ===================================================================== *)

Module DateUtils.

(** The three module-level variables. *)
Record Cache := {
  cachedYear : option Z;
  cachedMonth : option Z;
  lastCheck : Z
}.

Definition initialCache : Cache :=
  {| cachedYear := None; cachedMonth := None; lastCheck := 0 |}.

(** What the host clock answers during one call: [Date.now()], and the
    [getFullYear()] and [getMonth()] (0-indexed) of [new Date()]. *)
Record Clock := {
  now : Z;
  fullYear : Z;
  monthIndex : Z
}.

Record CachedDate := { year : Z; month : Z }.

Definition refresh (clk : Clock) : CachedDate * Cache :=
  let cachedYear' := fullYear clk in
  let cachedMonth' := monthIndex clk + 1 in
  ({| year := cachedYear'; month := cachedMonth' |},
   {| cachedYear := Some cachedYear';
      cachedMonth := Some cachedMonth';
      lastCheck := now clk |}).

Definition getCachedDate (clk : Clock) (c : Cache) : CachedDate * Cache :=
  match cachedYear c, cachedMonth c with
  | Some y, Some m =>
      if now clk - lastCheck c <? 60000
      then ({| year := y; month := m |}, c)
      else refresh clk
  | _, _ => refresh clk
  end.

(** [startMonth] is the optional parameter: [None] is a call that omits
    it, and the default [1] applies. *)
Definition calculateYearsOfExperience
    (startYear : Z) (startMonth : option Z) (clk : Clock) (c : Cache)
    : Z * Cache :=
  let startMonth := default 1 startMonth in
  let '(d, c') := getCachedDate clk c in
  let currentYear := year d in
  let currentMonth := month d in
  let years := currentYear - startYear in
  let years := if currentMonth <? startMonth then years - 1 else years in
  (Z.max 0 years, c').

Definition getCurrentYear (clk : Clock) (c : Cache) : Z * Cache :=
  let '(d, c') := getCachedDate clk c in (year d, c').

(** A clock stopped in December 2025, as in the doc comment's examples. *)
Definition december2025 : Clock :=
  {| now := 1764547200000; fullYear := 2025; monthIndex := 11 |}.

End DateUtils.

(* ===================================================================== *)
(** ** The SinglePagePortfolio component *)
(* ===================================================================== *)

Module Item.
(** One entry of the feed's [items] array.  [thumbnail] and [categories]
    are the two fields the component guards with [||]: [None] stands for
    an absent (falsy) field. *)
Record t := {
  title : string;
  link : string;
  pubDate : string;
  description : string;
  thumbnail : option string;
  categories : option (list string)
}.
End Item.

Module Portfolio.

(** *** The browser as the component reads it *)

Record Element := { offsetTop : Z; offsetHeight : Z }.

Record Window := {
  scrollY : Q;
  innerHeight : Z;
  document : gmap string Element
}.

Definition getElementById (w : Window) (id : string) : option Element :=
  document w !! id.

(** Comparisons of JavaScript numbers: [x >= y], [x < y], [x > y]. *)
Definition Qgeb (x y : Q) : bool := Qle_bool y x.
Definition Qltb (x y : Q) : bool := negb (Qle_bool y x).
Definition Qgtb (x y : Q) : bool := Qltb y x.

(** *** Component state *)

Record Article := {
  title : string;
  link : string;
  pubDate : string;
  description : string;
  thumbnail : string;
  categories : list string
}.

Record State := {
  activeSection : string;
  showBackToTop : bool;
  mobileMenuOpen : bool;
  articles : list Article;
  articlesLoading : bool
}.

(** The [useState] initial values. *)
Definition initialState : State :=
  {| activeSection := "home";
     showBackToTop := false;
     mobileMenuOpen := false;
     articles := [];
     articlesLoading := true |}.

Definition setActiveSection (v : string) (st : State) : State :=
  {| activeSection := v;
     showBackToTop := showBackToTop st;
     mobileMenuOpen := mobileMenuOpen st;
     articles := articles st;
     articlesLoading := articlesLoading st |}.

Definition setShowBackToTop (v : bool) (st : State) : State :=
  {| activeSection := activeSection st;
     showBackToTop := v;
     mobileMenuOpen := mobileMenuOpen st;
     articles := articles st;
     articlesLoading := articlesLoading st |}.

Definition setMobileMenuOpen (v : bool) (st : State) : State :=
  {| activeSection := activeSection st;
     showBackToTop := showBackToTop st;
     mobileMenuOpen := v;
     articles := articles st;
     articlesLoading := articlesLoading st |}.

Definition setArticles (v : list Article) (st : State) : State :=
  {| activeSection := activeSection st;
     showBackToTop := showBackToTop st;
     mobileMenuOpen := mobileMenuOpen st;
     articles := v;
     articlesLoading := articlesLoading st |}.

Definition setArticlesLoading (v : bool) (st : State) : State :=
  {| activeSection := activeSection st;
     showBackToTop := showBackToTop st;
     mobileMenuOpen := mobileMenuOpen st;
     articles := articles st;
     articlesLoading := v |}.

(** The two [sections] arrays: the story page and the earlier page. *)
Definition sectionsStory : list string :=
  ["home"; "about"; "journey"; "works"; "services"; "articles"; "contact"].

Definition sectionsClassic : list string :=
  ["home"; "about"; "experience"; "education"; "projects"; "services";
   "contact"].

(** *** handleScroll *)

(** [window.scrollY + window.innerHeight / 2] *)
Definition scrollPosition (w : Window) : Q :=
  (scrollY w + inject_Z (innerHeight w) / 2)%Q.

(** [scrollPosition >= offsetTop &&
     scrollPosition < offsetTop + offsetHeight] *)
Definition inExtent (pos : Q) (element : Element) : bool :=
  Qgeb pos (inject_Z (offsetTop element))
  && Qltb pos (inject_Z (offsetTop element + offsetHeight element)).

(** The [for ... of sections] loop with its [break]. *)
Fixpoint sectionLoop (w : Window) (pos : Q) (sections : list string)
    (st : State) : State :=
  match sections with
  | [] => st
  | section :: rest =>
      match getElementById w section with
      | Some element =>
          if inExtent pos element
          then setActiveSection section st
          else sectionLoop w pos rest st
      | None => sectionLoop w pos rest st
      end
  end.

Definition handleScroll (sections : list string) (w : Window)
    (st : State) : State :=
  let pos := scrollPosition w in
  let st := setShowBackToTop (Qgtb (scrollY w) 300) st in
  sectionLoop w pos sections st.

(** *** The effect: throttledScroll, the frame callback, the cleanup *)

(** What the browser is asked to do, in order. *)
Inductive Error := TypeError | SyntaxError.

Inductive Command :=
| ScrollTo (top : Z) (behavior : string)
| Fetch (url : string)
| ConsoleError (message : string) (error : Error).

(** The mounted component: its React state, the effect's [ticking]
    variable, the callbacks handed to [requestAnimationFrame] and not yet
    run (they are all the same closure, so a count), whether
    [throttledScroll] is still registered on [window], the commands
    issued so far, and a counter of [handleScroll] executions. *)
Record Runtime := {
  tracker : State;
  ticking : bool;
  frameQueue : nat;
  listening : bool;
  commands : list Command;
  handleScrollRuns : nat
}.

Definition mount : Runtime :=
  {| tracker := initialState;
     ticking := false;
     frameQueue := 0;
     listening := true;
     commands := [];
     handleScrollRuns := 0 |}.

Definition throttledScroll (r : Runtime) : Runtime :=
  if negb (ticking r)
  then {| tracker := tracker r;
          ticking := true;
          frameQueue := S (frameQueue r);
          listening := listening r;
          commands := commands r;
          handleScrollRuns := handleScrollRuns r |}
  else r.

(** The effect's only dependency, [sections], is memoised with an empty
    dependency list, so the effect runs once and its cleanup runs only
    when the component unmounts: the component is mounted exactly while
    [throttledScroll] is registered. *)
Definition mounted (r : Runtime) : bool := listening r.

(** React's side of a [useState] setter: the state [st'] that the setter
    calls of a callback ask for is taken over while the component is
    mounted; after unmount the calls are dropped. *)
Definition commit (r : Runtime) (st' : State) : State :=
  if mounted r then st' else tracker r.

(** [() => { handleScroll(); ticking = false; }] *)
Definition frameCallback (sections : list string) (w : Window)
    (r : Runtime) : Runtime :=
  {| tracker := commit r (handleScroll sections w (tracker r));
     ticking := false;
     frameQueue := frameQueue r;
     listening := listening r;
     commands := commands r;
     handleScrollRuns := S (handleScrollRuns r) |}.

(** The browser renders a frame: it takes the queued callbacks and runs
    each of them. *)
Definition animationFrame (sections : list string) (w : Window)
    (r : Runtime) : Runtime :=
  Nat.iter (frameQueue r) (frameCallback sections w)
    {| tracker := tracker r;
       ticking := ticking r;
       frameQueue := 0;
       listening := listening r;
       commands := commands r;
       handleScrollRuns := handleScrollRuns r |}.

(** A scroll event reaches [throttledScroll] only while it is
    registered. *)
Definition scrollEvent (r : Runtime) : Runtime :=
  if listening r then throttledScroll r else r.

(** [() => window.removeEventListener('scroll', throttledScroll)] *)
Definition cleanup (r : Runtime) : Runtime :=
  {| tracker := tracker r;
     ticking := ticking r;
     frameQueue := frameQueue r;
     listening := false;
     commands := commands r;
     handleScrollRuns := handleScrollRuns r |}.

(** *** Callbacks that act on the state and on the browser *)

(** The result of running a callback: the state it leaves, the commands
    it issued, and the exception that escaped it, if any. *)
Record Outcome := {
  final : State;
  log : list Command;
  thrown : option Error
}.

Definition Action := State -> Outcome.

Definition skip : Action :=
  fun st => {| final := st; log := []; thrown := None |}.

Definition update (f : State -> State) : Action :=
  fun st => {| final := f st; log := []; thrown := None |}.

Definition emit (c : Command) : Action :=
  fun st => {| final := st; log := [c]; thrown := None |}.

Definition throw (e : Error) : Action :=
  fun st => {| final := st; log := []; thrown := Some e |}.

(** [a; b]: [b] runs only if [a] completes normally. *)
Definition andThen (a b : Action) : Action :=
  fun st =>
    let o := a st in
    match thrown o with
    | Some _ => o
    | None =>
        let o' := b (final o) in
        {| final := final o'; log := log o ++ log o'; thrown := thrown o' |}
    end.

(** [try { a } catch (error) { h error }] *)
Definition tryCatch (a : Action) (h : Error -> Action) : Action :=
  fun st =>
    let o := a st in
    match thrown o with
    | None => o
    | Some e =>
        let o' := h e (final o) in
        {| final := final o'; log := log o ++ log o'; thrown := thrown o' |}
    end.

(** [try { a } finally { f }]: [f] always runs; an exception of [a]
    survives it unless [f] throws itself. *)
Definition tryFinally (a f : Action) : Action :=
  fun st =>
    let o := a st in
    let o' := f (final o) in
    {| final := final o';
       log := log o ++ log o';
       thrown := match thrown o' with
                 | Some e => Some e
                 | None => thrown o
                 end |}.

(** *** scrollToSection *)

Definition scrollToSection (w : Window) (sectionId : string) : Action :=
  match getElementById w sectionId with
  | Some element => emit (ScrollTo (offsetTop element - 80) "smooth")
  | None => skip
  end.

(** *** fetchArticles *)

(** [s.replace(/<[^>]*>/g, '')].  A match starts at a ["<"] that has a
    [">"] somewhere after it and ends at the first such [">"]; the scan
    resumes behind it.  [inTag] says that the scan is inside a match. *)
Fixpoint hasClosing (s : string) : bool :=
  match s with
  | EmptyString => false
  | String c rest => Ascii.eqb c ">"%char || hasClosing rest
  end.

Fixpoint replaceTags (inTag : bool) (s : string) : string :=
  match s with
  | EmptyString => EmptyString
  | String c rest =>
      if inTag
      then replaceTags (negb (Ascii.eqb c ">"%char)) rest
      else if Ascii.eqb c "<"%char && hasClosing rest
           then replaceTags true rest
           else String c (replaceTags false rest)
  end.

Definition stripTags (s : string) : string := replaceTags false s.

(** The object literal built for each item. *)
Definition formatItem (item : Item.t) : Article :=
  {| title := Item.title item;
     link := Item.link item;
     pubDate := Item.pubDate item;
     description :=
       String.append
         (String.substring 0 150 (stripTags (Item.description item)))
         "...";
     thumbnail := default "" (Item.thumbnail item);
     categories := default [] (Item.categories item) |}.

(** The parsed body: [data.status] and [data.items] ([None] when the
    field is absent). *)
Record FeedData := {
  status : string;
  items : option (list Item.t)
}.

(** How the two awaited promises settle. *)
Inductive Response :=
| FetchRejected (e : Error)
| JsonRejected (e : Error)
| JsonParsed (data : FeedData).

Definition feedUrl : string :=
  "https://api.rss2json.com/v1/api.json?rss_url=https://medium.com/feed/@dino.cosic".

Definition fetchArticles (r : Response) : Action :=
  tryFinally
    (tryCatch
       (andThen (update (setArticlesLoading true))
       (andThen (emit (Fetch feedUrl))
        match r with
        | FetchRejected e => throw e
        | JsonRejected e => throw e
        | JsonParsed data =>
            match (if String.eqb (status data) "ok"
                   then items data else None) with
            | Some its =>
                let formattedArticles := map formatItem (take 6 its) in
                update (setArticles formattedArticles)
            | None => skip
            end
        end))
       (fun error => emit (ConsoleError "Failed to fetch articles:" error)))
    (update (setArticlesLoading false)).

(** What the articles section renders. *)
Inductive ArticlesView := LoadingView | GridView | EmptyView.

Definition articlesView (st : State) : ArticlesView :=
  if articlesLoading st then LoadingView
  else if (0 <? length (articles st))%nat then GridView
  else EmptyView.

(** *** Everything that can happen to the mounted component *)

Inductive Event :=
| ScrollEvent
| AnimationFrame (w : Window)
| Cleanup
| ScrollToSection (w : Window) (sectionId : string)
| FetchArticles (r : Response)
| SetMobileMenuOpen (v : bool).

Definition perform (a : Action) (r : Runtime) : Runtime :=
  let o := a (tracker r) in
  {| tracker := commit r (final o);
     ticking := ticking r;
     frameQueue := frameQueue r;
     listening := listening r;
     commands := commands r ++ log o;
     handleScrollRuns := handleScrollRuns r |}.

Definition step (sections : list string) (r : Runtime) (e : Event)
    : Runtime :=
  match e with
  | ScrollEvent => scrollEvent r
  | AnimationFrame w => animationFrame sections w r
  | Cleanup => cleanup r
  | ScrollToSection w sectionId => perform (scrollToSection w sectionId) r
  | FetchArticles resp => perform (fetchArticles resp) r
  | SetMobileMenuOpen v => perform (update (setMobileMenuOpen v)) r
  end.

Definition run (sections : list string) (es : list Event) (r : Runtime)
    : Runtime :=
  fold_left (step sections) es r.

(** *** Vocabulary of the statements *)

(** The probe [pos] lies in the extent
    [[offsetTop, offsetTop + offsetHeight)] of [element]. *)
Definition Contains (pos : Q) (element : Element) : Prop :=
  (inject_Z (offsetTop element) <= pos)%Q
  /\ (pos < inject_Z (offsetTop element + offsetHeight element))%Q.

(** Section [s] is rendered in [w] and its extent contains the probe
    position of [w]. *)
Definition Matches (w : Window) (s : string) : Prop :=
  exists element,
    getElementById w s = Some element
    /\ Contains (scrollPosition w) element.

(** The same, as a test that can be run. *)
Definition matchesb (w : Window) (s : string) : bool :=
  match getElementById w s with
  | Some element => inExtent (scrollPosition w) element
  | None => false
  end.

(** [n] scroll events in a row, with no frame rendered in between. *)
Definition scrollBurst (n : nat) (r : Runtime) : Runtime :=
  Nat.iter n scrollEvent r.

(** The active section of [r] is one of [sections]. *)
Definition Configured (sections : list string) (r : Runtime) : Prop :=
  activeSection (tracker r) ∈ sections.

(** The throttle's bookkeeping: a callback is queued exactly while
    [ticking] is set. *)
Definition Coherent (r : Runtime) : Prop :=
  frameQueue r = if ticking r then 1%nat else 0%nat.

(** An outcome that reports a failure to its caller: an exception that
    escapes, or an error written to the console. *)
Definition Reported (o : Outcome) : Prop :=
  thrown o <> None
  \/ exists message error, ConsoleError message error ∈ log o.

(** *** Sample documents *)

(** Three stacked sections of 800 pixels: home [0,800), about
    [800,1600), contact [1600,2400). *)
Definition threeSections : gmap string Element :=
  <["home" := {| offsetTop := 0; offsetHeight := 800 |}]>
  (<["about" := {| offsetTop := 800; offsetHeight := 800 |}]>
  (<["contact" := {| offsetTop := 1600; offsetHeight := 800 |}]> ∅)).

(** A window of height 600 over [threeSections], scrolled to [y]. *)
Definition windowAt (y : Q) : Window :=
  {| scrollY := y; innerHeight := 600; document := threeSections |}.

(** A feed item whose description carries markup. *)
Definition sampleItem : Item.t :=
  {| Item.title := "A post";
     Item.link := "https://medium.com/@dino.cosic/a-post";
     Item.pubDate := "2025-01-01 00:00:00";
     Item.description := "<p>Hello <b>world</b></p>";
     Item.thumbnail := None;
     Item.categories := Some ["dotnet"] |}.

End Portfolio.

(* ===================================================================== *)
(** ** Successive calls of the date cache *)
(* ===================================================================== *)

Module DateCalls.
Import DateUtils.

(** One call of [getCachedDate] per clock reading, the module variables
    carried from call to call; the dates are listed in call order. *)
Fixpoint getCachedDates (clks : list Clock) (c : Cache)
    : list CachedDate * Cache :=
  match clks with
  | [] => ([], c)
  | clk :: rest =>
      let '(d, c1) := getCachedDate clk c in
      let '(ds, c2) := getCachedDates rest c1 in
      (d :: ds, c2)
  end.

(** [getMonth()] answers 0..11. *)
Definition ValidClock (clk : Clock) : Prop := 0 <= monthIndex clk <= 11.

(** A cached month, if there is one, is a calendar month. *)
Definition ValidCache (c : Cache) : Prop :=
  forall m, cachedMonth c = Some m -> 1 <= m <= 12.

(** The start date [(y1, m1)] is not later than [(y2, m2)]. *)
Definition NotLater (y1 m1 y2 m2 : Z) : Prop :=
  y1 < y2 \/ (y1 = y2 /\ m1 <= m2).

End DateCalls.

(* ===================================================================== *)
(** ** SinglePagePortfolio: navigation items and menu handlers *)
(* ===================================================================== *)

Module Nav.
Import Portfolio.

Definition navItemsStory : list string :=
  ["Prologue"; "Story"; "Journey"; "Works"; "Services"; "Articles";
   "Epilogue"].

Definition navItemsClassic : list string :=
  ["Home"; "About"; "Experience"; "Education"; "Projects"; "Services";
   "Contact"].

(** [item.toLowerCase()] for the labels above, which are ASCII: the
    letters A..Z move to a..z, every other character stays. *)
Definition lowerChar (c : ascii) : ascii :=
  let n := nat_of_ascii c in
  if ((65 <=? n) && (n <=? 90))%nat then ascii_of_nat (n + 32) else c.

Fixpoint toLowerCase (s : string) : string :=
  match s with
  | EmptyString => EmptyString
  | String c rest => String (lowerChar c) (toLowerCase rest)
  end.

(** [sections[index]] handed to [getElementById]: an index out of range
    gives [undefined], which the DOM reads as the id "undefined". *)
Definition sectionAt (sections : list string) (index : nat) : string :=
  default "undefined" (sections !! index).

(** Story page: [handleNavClick(index)]. *)
Definition handleNavClickStory (w : Window) (index : nat) : Action :=
  andThen (scrollToSection w (sectionAt sectionsStory index))
          (update (setMobileMenuOpen false)).

(** Earlier page: [closeMobileMenu], [toggleMobileMenu] and
    [handleNavClick(item)]. *)
Definition closeMobileMenu : Action := update (setMobileMenuOpen false).

Definition toggleMobileMenu : Action :=
  update (fun st => setMobileMenuOpen (negb (mobileMenuOpen st)) st).

Definition handleNavClickClassic (w : Window) (item : string) : Action :=
  andThen (scrollToSection w (toLowerCase item)) closeMobileMenu.

(** The class test of a navigation button.  Story page:
    [activeSection === sections[index]]; earlier page:
    [activeSection === item.toLowerCase()]. *)
Definition linkActiveStory (active : string) (index : nat) : bool :=
  match sectionsStory !! index with
  | Some s => String.eqb active s
  | None => false
  end.

Definition linkActiveClassic (active : string) (item : string) : bool :=
  String.eqb active (toLowerCase item).

(** The buttons that take the class "active": a button of the nav-links
    list, the hamburger, a button of the mobile-menu list. *)
Inductive NavButton :=
| NavLink (item : string)
| Hamburger
| MobileMenuLink (item : string).

(** What the component renders of them, in document order, each button
    with the test that decides its class: the nav-links list, the
    hamburger ([mobileMenuOpen ? 'active' : '']), and the mobile-menu
    list, which is in the document only while [mobileMenuOpen]. *)
Definition renderNavStory (st : State) : list (NavButton * bool) :=
  imap (fun index item =>
          (NavLink item, linkActiveStory (activeSection st) index))
       navItemsStory
  ++ [(Hamburger, mobileMenuOpen st)]
  ++ (if mobileMenuOpen st
      then imap (fun index item =>
                   (MobileMenuLink item,
                    linkActiveStory (activeSection st) index))
                navItemsStory
      else []).

Definition renderNavClassic (st : State) : list (NavButton * bool) :=
  map (fun item =>
         (NavLink item, linkActiveClassic (activeSection st) item))
      navItemsClassic
  ++ [(Hamburger, mobileMenuOpen st)]
  ++ (if mobileMenuOpen st
      then map (fun item =>
                  (MobileMenuLink item,
                   linkActiveClassic (activeSection st) item))
               navItemsClassic
      else []).

(** The rendered buttons whose class list has "active". *)
Definition activeButtons (l : list (NavButton * bool)) : list NavButton :=
  map fst (List.filter snd l).

(** The window once a scroll to [top] has come to rest there. *)
Definition settledAt (w : Window) (top : Z) : Window :=
  {| scrollY := inject_Z top;
     innerHeight := innerHeight w;
     document := document w |}.

(** Three sections, the middle one only 100 pixels high. *)
Definition shortMiddle : gmap string Element :=
  <["home" := {| offsetTop := 0; offsetHeight := 1000 |}]>
  (<["about" := {| offsetTop := 1000; offsetHeight := 100 |}]>
  (<["contact" := {| offsetTop := 1100; offsetHeight := 900 |}]> ∅)).

End Nav.

(* ===================================================================== *)
(** ** Event traces of the mounted component *)
(* ===================================================================== *)

Module Trace.
Import Portfolio.

Definition isScroll (e : Event) : bool :=
  match e with ScrollEvent => true | _ => false end.

Definition isFrame (e : Event) : bool :=
  match e with AnimationFrame _ => true | _ => false end.

Definition countScrolls (es : list Event) : nat :=
  length (List.filter isScroll es).

Definition countFrames (es : list Event) : nat :=
  length (List.filter isFrame es).

(** [n] scroll events and then the frame, rendered with the window as
    [w]. *)
Definition cycle (p : nat * Window) : list Event :=
  replicate (fst p) ScrollEvent ++ [AnimationFrame (snd p)].

Definition cycles (ps : list (nat * Window)) : list Event :=
  concat (map cycle ps).

(** The recomputations at the frames of [ps], one after the other. *)
Definition recompute (sections : list string) (ps : list (nat * Window))
    (st : State) : State :=
  fold_left (fun st p => handleScroll sections (snd p) st) ps st.

End Trace.

(* ===================================================================== *)
(** ** Markup in excerpts *)
(* ===================================================================== *)

Module Markup.
Import Portfolio.

(** [/<[^>]*>/.test(s)]: somewhere in [s] there is a ["<"] with a [">"]
    behind it. *)
Fixpoint containsTag (s : string) : bool :=
  match s with
  | EmptyString => false
  | String c rest =>
      (Ascii.eqb c "<"%char && hasClosing rest) || containsTag rest
  end.

End Markup.

(* ===================================================================== *)
(** ** src/utils/index.ts *)
(* ===================================================================== *)

Module Utils.

(** An argument of [cn]: [string | undefined | null | false]. *)
Inductive ClassValue :=
| Str (s : string)
| Undefined
| Null
| False.

(** [Boolean(x)]: only a non-empty string is truthy. *)
Definition truthy (x : ClassValue) : bool :=
  match x with
  | Str EmptyString => false
  | Str _ => true
  | _ => false
  end.

(** The strings that [filter(Boolean)] keeps. *)
Fixpoint kept (classes : list ClassValue) : list string :=
  match classes with
  | [] => []
  | x :: rest =>
      match x with
      | Str s => if truthy x then s :: kept rest else kept rest
      | _ => kept rest
      end
  end.

(** [Array.prototype.join(sep)] on strings. *)
Fixpoint join (sep : string) (l : list string) : string :=
  match l with
  | [] => EmptyString
  | [s] => s
  | s :: rest => String.append s (String.append sep (join sep rest))
  end.

Definition cn (classes : list ClassValue) : string :=
  join " " (kept classes).

End Utils.

(* ===================================================================== *)
(** ** src/components/layout/Navigation.tsx *)
(* ===================================================================== *)

Module Navigation.
Import Portfolio.



Record State := {
  isScrolled : bool;
  isMobileMenuOpen : bool
}.

Definition initialState : State :=
  {| isScrolled := false; isMobileMenuOpen := false |}.

(** [setIsScrolled(window.scrollY > 20)]; registered unthrottled. *)
Definition handleScroll (scrollY : Q) (st : State) : State :=
  {| isScrolled := Qgtb scrollY 20;
     isMobileMenuOpen := isMobileMenuOpen st |}.





End Navigation.

(* ===================================================================== *)
(** ** Properties of dateUtils *)
(* ===================================================================== *)

Section DateUtilsFacts.
Import DateUtils.

(** The two examples of the doc comment of [calculateYearsOfExperience]. *)
Example years_since_january_2018 :
  fst (calculateYearsOfExperience 2018 (Some 1) december2025 initialCache)
  = 7.
Proof. reflexivity. Qed.

Example years_since_october_2019 :
  fst (calculateYearsOfExperience 2019 (Some 10) december2025 initialCache)
  = 6.
Proof. reflexivity. Qed.

(** An omitted [startMonth] is January. *)
Lemma calculateYearsOfExperience_default startYear clk c :
  calculateYearsOfExperience startYear None clk c
  = calculateYearsOfExperience startYear (Some 1) clk c.
Proof. reflexivity. Qed.

(** Within 60 seconds of the last refresh the cache answers, and is left
    as it is. *)
Lemma getCachedDate_hit clk c y m :
  cachedYear c = Some y -> cachedMonth c = Some m ->
  now clk - lastCheck c < 60000 ->
  getCachedDate clk c = ({| year := y; month := m |}, c).
Proof.
  intros Hy Hm Hfresh. unfold getCachedDate. rewrite Hy, Hm.
  destruct (Z.ltb_spec (now clk - lastCheck c) 60000); [reflexivity | lia].
Qed.

(** Otherwise the clock is read: the month is the 1-based one. *)
Lemma getCachedDate_miss clk c :
  60000 <= now clk - lastCheck c ->
  fst (getCachedDate clk c)
  = {| year := fullYear clk; month := monthIndex clk + 1 |}.
Proof.
  intros Hstale. unfold getCachedDate.
  destruct (cachedYear c), (cachedMonth c); try reflexivity.
  destruct (Z.ltb_spec (now clk - lastCheck c) 60000); [lia | reflexivity].
Qed.

(** C10: for every integer [startYear] and every [startMonth] in 1..12,
    [calculateYearsOfExperience] returns
    [max 0 (currentYear - startYear - (1 if currentMonth < startMonth
    else 0))], where the current year and month are those
    [getCachedDate] yields in that call; the result is never negative,
    whatever [startYear] is. *)
Theorem calculateYearsOfExperience_spec
    (startYear startMonth : Z) (clk : Clock) (c : Cache) :
  1 <= startMonth <= 12 ->
  let d := fst (getCachedDate clk c) in
  let result :=
    fst (calculateYearsOfExperience startYear (Some startMonth) clk c) in
  result
  = Z.max 0 (year d - startYear
             - (if month d <? startMonth then 1 else 0))
  /\ 0 <= result.
Proof.
  intros _. cbn zeta. unfold calculateYearsOfExperience.
  destruct (getCachedDate clk c) as [d c']. cbn.
  destruct (month d <? startMonth); split; lia.
Qed.

Lemma calculateYearsOfExperience_spec_witness :
  1 <= 10 <= 12
  /\ fst (calculateYearsOfExperience 2030 (Some 10) december2025 initialCache)
  = Z.max 0 (2025 - 2030 - 0)
  /\ 0 <= fst (calculateYearsOfExperience 2030 (Some 10) december2025
                 initialCache).
Proof.
  assert (Hmonth : 1 <= 10 <= 12) by lia.
  split; [exact Hmonth |].
  exact (calculateYearsOfExperience_spec 2030 10 december2025 initialCache
           Hmonth).
Defined.

End DateUtilsFacts.

(* ===================================================================== *)
(** ** Properties of handleScroll *)
(* ===================================================================== *)

Section HandleScrollFacts.
Import Portfolio.

Lemma Qgeb_true x y : Qgeb x y = true <-> (y <= x)%Q.
Proof. apply Qle_bool_iff. Qed.

Lemma Qltb_true x y : Qltb x y = true <-> (x < y)%Q.
Proof.
  unfold Qltb. rewrite negb_true_iff. split.
  - intros Hb. apply Qnot_le_lt. intros Hle.
    apply Qle_bool_iff in Hle. congruence.
  - intros Hlt. destruct (Qle_bool y x) eqn:Hb; [| reflexivity].
    apply Qle_bool_iff in Hb. destruct (Qlt_not_le _ _ Hlt Hb).
Qed.

Lemma Qgtb_true x y : Qgtb x y = true <-> (y < x)%Q.
Proof. apply Qltb_true. Qed.

Lemma inExtent_true pos element :
  inExtent pos element = true <-> Contains pos element.
Proof.
  unfold inExtent, Contains.
  rewrite andb_true_iff, Qgeb_true, Qltb_true. reflexivity.
Qed.

Lemma inExtent_false pos element :
  inExtent pos element = false <-> ~ Contains pos element.
Proof. rewrite <- inExtent_true. symmetry. apply not_true_iff_false. Qed.

(** A section of height zero (or less) never contains the probe. *)
Lemma degenerate_never_contains pos element :
  offsetHeight element <= 0 -> ~ Contains pos element.
Proof.
  intros Hh [Hlo Hhi].
  assert (Hle : (inject_Z (offsetTop element + offsetHeight element)
                 <= inject_Z (offsetTop element))%Q).
  { rewrite <- Zle_Qle. lia. }
  apply (Qlt_irrefl pos).
  eapply Qlt_le_trans; [exact Hhi |].
  eapply Qle_trans; [exact Hle | exact Hlo].
Qed.

Variable w : Window.

(** The loop either finds nothing and returns the state it was given, or
    stops at a section that matches and makes it the active one. *)
Lemma sectionLoop_cases l st :
  sectionLoop w (scrollPosition w) l st = st
  \/ exists s, s ∈ l /\ Matches w s
       /\ sectionLoop w (scrollPosition w) l st = setActiveSection s st.
Proof.
  induction l as [| s l IH]; cbn; [by left |].
  destruct (getElementById w s) as [element |] eqn:Hel.
  - destruct (inExtent (scrollPosition w) element) eqn:Hin.
    + right. exists s. split; [left |].
      split; [| reflexivity].
      exists element. split; [exact Hel | by apply inExtent_true].
    + destruct IH as [IH | (s' & Hs' & Hm & IH)]; [by left |].
      right. exists s'. split; [by right | by split].
  - destruct IH as [IH | (s' & Hs' & Hm & IH)]; [by left |].
    right. exists s'. split; [by right | by split].
Qed.

(** Sections in front of the first matching one are passed over. *)
Lemma sectionLoop_first_match pre s post st :
  (forall s', s' ∈ pre -> ~ Matches w s') ->
  Matches w s ->
  sectionLoop w (scrollPosition w) (pre ++ s :: post) st
  = setActiveSection s st.
Proof.
  intros Hpre (element & Hel & Hin).
  induction pre as [| p pre IH]; cbn.
  - rewrite Hel. apply inExtent_true in Hin. by rewrite Hin.
  - assert (IH' : sectionLoop w (scrollPosition w) (pre ++ s :: post) st
                  = setActiveSection s st).
    { apply IH. intros s' Hs'. apply Hpre. by right. }
    destruct (getElementById w p) as [ep |] eqn:Hp; [| exact IH'].
    destruct (inExtent (scrollPosition w) ep) eqn:Hinp; [| exact IH'].
    exfalso. apply (Hpre p); [left |].
    exists ep. split; [exact Hp | by apply inExtent_true].
Qed.

Lemma sectionLoop_no_match l st :
  (forall s, s ∈ l -> ~ Matches w s) ->
  sectionLoop w (scrollPosition w) l st = st.
Proof.
  intros Hnone.
  destruct (sectionLoop_cases l st) as [Heq | (s & Hs & Hm & _)];
    [exact Heq | destruct (Hnone s Hs Hm)].
Qed.

(** The loop writes no field but [activeSection]. *)
Lemma sectionLoop_frame l st :
  let st' := sectionLoop w (scrollPosition w) l st in
  showBackToTop st' = showBackToTop st
  /\ mobileMenuOpen st' = mobileMenuOpen st
  /\ articles st' = articles st
  /\ articlesLoading st' = articlesLoading st.
Proof.
  cbn zeta.
  destruct (sectionLoop_cases l st) as [-> | (s & _ & _ & ->)]; by cbn.
Qed.

Lemma handleScroll_first_match sections pre s post st :
  sections = pre ++ s :: post ->
  (forall s', s' ∈ pre -> ~ Matches w s') ->
  Matches w s ->
  activeSection (handleScroll sections w st) = s.
Proof.
  intros -> Hpre Hm. unfold handleScroll.
  by rewrite (sectionLoop_first_match pre s post _ Hpre Hm).
Qed.

(** A recomputation keeps the active section or takes a configured,
    matching one. *)
Lemma handleScroll_active_cases sections st :
  activeSection (handleScroll sections w st) = activeSection st
  \/ (activeSection (handleScroll sections w st) ∈ sections
      /\ Matches w (activeSection (handleScroll sections w st))).
Proof.
  unfold handleScroll.
  destruct (sectionLoop_cases sections
              (setShowBackToTop (Qgtb (scrollY w) 300) st))
    as [-> | (s & Hs & Hm & ->)]; [by left | by right].
Qed.

(** C1: when the probe position (scrollY + innerHeight / 2) lies in the
    extent of exactly one configured section [s], [handleScroll] makes
    [s] the active section; [s] is then the first match in the configured
    order: no section in front of it matches. *)
Theorem handleScroll_selects_containing_section
    (sections : list string) (st : State) (s : string) :
  s ∈ sections ->
  Matches w s ->
  (forall s', s' ∈ sections -> Matches w s' -> s' = s) ->
  activeSection (handleScroll sections w st) = s
  /\ exists pre post,
       sections = pre ++ s :: post
       /\ forall s', s' ∈ pre -> ~ Matches w s'.
Proof.
  intros Hs Hm Huniq.
  destruct (list_elem_of_split_l _ _ Hs) as (pre & post & Hsplit & Hfresh).
  assert (Hpre : forall s', s' ∈ pre -> ~ Matches w s').
  { intros s' Hs' Hm'. apply Hfresh.
    rewrite <- (Huniq s'); [exact Hs' | | exact Hm'].
    rewrite Hsplit. apply elem_of_app. by left. }
  split.
  - by apply (handleScroll_first_match sections pre s post).
  - by exists pre, post.
Qed.

(** C2: when the probe position lies in no configured section's extent,
    [handleScroll] leaves the active section as it was. *)
Theorem handleScroll_sticky_fallback
    (sections : list string) (st : State) :
  (forall s, s ∈ sections -> ~ Matches w s) ->
  activeSection (handleScroll sections w st) = activeSection st.
Proof.
  intros Hnone. unfold handleScroll.
  by rewrite sectionLoop_no_match.
Qed.

(** The flag is recomputed from [scrollY] alone. *)
Lemma handleScroll_showBackToTop sections st :
  showBackToTop (handleScroll sections w st) = Qgtb (scrollY w) 300.
Proof.
  unfold handleScroll.
  by destruct (sectionLoop_frame sections
                 (setShowBackToTop (Qgtb (scrollY w) 300) st)) as [-> _].
Qed.

End HandleScrollFacts.

Section HandleScrollScenarios.
Import Portfolio.

Lemma matchesb_true w s : matchesb w s = true <-> Matches w s.
Proof.
  unfold matchesb, Matches. split.
  - destruct (getElementById w s) as [element |]; [| discriminate].
    intros Hin. exists element. split; [reflexivity |].
    by apply inExtent_true.
  - intros (element & -> & Hin). by apply inExtent_true.
Qed.

Lemma matchesb_false w s : matchesb w s = false <-> ~ Matches w s.
Proof. rewrite <- matchesb_true. symmetry. apply not_true_iff_false. Qed.

(** Membership in a list literal, one element at a time. *)
Ltac each_section H :=
  repeat (apply elem_of_cons in H as [-> | H]);
  [.. | by apply elem_of_nil in H].

(** Scrolled to 550 in a window 600 high, the probe is at 850, inside
    "about" only. *)
Lemma handleScroll_selects_containing_section_witness :
  activeSection
    (handleScroll ["home"; "about"; "contact"] (windowAt 550) initialState)
  = "about"
  /\ exists pre post,
       ["home"; "about"; "contact"] = pre ++ "about" :: post
       /\ forall s', s' ∈ pre -> ~ Matches (windowAt 550) s'.
Proof.
  apply (handleScroll_selects_containing_section (windowAt 550)
           ["home"; "about"; "contact"] initialState "about").
  - apply elem_of_cons. right. apply elem_of_cons. by left.
  - apply matchesb_true. vm_compute. reflexivity.
  - intros s' Hs' Hm. apply matchesb_true in Hm.
    each_section Hs'; vm_compute in Hm; first [discriminate Hm | reflexivity].
Defined.

(** Scrolled to 2200, the probe is at 2500, below the last section. *)
Lemma handleScroll_sticky_fallback_witness :
  activeSection
    (handleScroll ["home"; "about"; "contact"] (windowAt 2200)
       (setActiveSection "about" initialState))
  = "about".
Proof.
  apply (handleScroll_sticky_fallback (windowAt 2200)
           ["home"; "about"; "contact"]
           (setActiveSection "about" initialState)).
  intros s Hs. apply matchesb_false.
  each_section Hs; vm_compute; reflexivity.
Defined.

(** The scenario of three sections: probe 850 selects "about", probe
    2500 then keeps it. *)
Example three_sections_scenario :
  let st1 := handleScroll ["home"; "about"; "contact"] (windowAt 550)
               initialState in
  let st2 := handleScroll ["home"; "about"; "contact"] (windowAt 2200)
               st1 in
  activeSection st1 = "about" /\ activeSection st2 = "about".
Proof. vm_compute. by split. Qed.

(** When two extents overlap, the section configured first wins. *)
Example overlapping_sections_first_wins :
  let doc : gmap string Element :=
    <["a" := {| offsetTop := 0; offsetHeight := 1000 |}]>
    (<["b" := {| offsetTop := 500; offsetHeight := 1000 |}]> ∅) in
  let w := {| scrollY := 400; innerHeight := 600; document := doc |} in
  activeSection (handleScroll ["a"; "b"] w initialState) = "a"
  /\ activeSection (handleScroll ["b"; "a"] w initialState) = "b".
Proof. vm_compute. by split. Qed.

(** C8: after every recomputation [showBackToTop] is true if and only if
    [scrollY > 300]; in particular it is false at 299 and at exactly
    300, and true at 301. *)
Theorem showBackToTop_iff_beyond_300
    (sections : list string) (w : Window) (st : State) :
  (showBackToTop (handleScroll sections w st) = true
   <-> (300 < scrollY w)%Q)
  /\ (forall h doc,
        showBackToTop
          (handleScroll sections
             {| scrollY := 299; innerHeight := h; document := doc |} st)
        = false
        /\ showBackToTop
             (handleScroll sections
                {| scrollY := 300; innerHeight := h; document := doc |} st)
           = false
        /\ showBackToTop
             (handleScroll sections
                {| scrollY := 301; innerHeight := h; document := doc |} st)
           = true).
Proof.
  split.
  - rewrite handleScroll_showBackToTop. apply Qgtb_true.
  - intros h doc. by rewrite !handleScroll_showBackToTop.
Qed.

End HandleScrollScenarios.

(* ===================================================================== *)
(** ** Properties of the throttle and of the cleanup *)
(* ===================================================================== *)

Section ThrottleFacts.
Import Portfolio.

Variable sections : list string.

(** While [ticking] is set, [throttledScroll] does nothing. *)
Lemma throttledScroll_dropped r :
  ticking r = true -> throttledScroll r = r.
Proof. intros Ht. unfold throttledScroll. by rewrite Ht. Qed.

Lemma scrollEvent_coherent r : Coherent r -> Coherent (scrollEvent r).
Proof.
  unfold Coherent, scrollEvent, throttledScroll.
  destruct (listening r), (ticking r) eqn:Ht; cbn; rewrite ?Ht; congruence.
Qed.

(** A scroll event runs no recomputation and touches no React state. *)
Lemma scrollEvent_defers r :
  handleScrollRuns (scrollEvent r) = handleScrollRuns r
  /\ tracker (scrollEvent r) = tracker r
  /\ listening (scrollEvent r) = listening r.
Proof.
  unfold scrollEvent, throttledScroll.
  destruct r as [st [] q [] c k]; by cbn.
Qed.

Lemma scrollEvent_sets_ticking r :
  listening r = true -> ticking (scrollEvent r) = true.
Proof.
  intros Hl. unfold scrollEvent, throttledScroll. rewrite Hl.
  by destruct (ticking r) eqn:Ht.
Qed.

Lemma scrollEvent_detached r : listening r = false -> scrollEvent r = r.
Proof. intros Hl. unfold scrollEvent. by rewrite Hl. Qed.

Lemma scrollBurst_S n r : scrollBurst (S n) r = scrollEvent (scrollBurst n r).
Proof. reflexivity. Qed.

Lemma scrollBurst_coherent n r : Coherent r -> Coherent (scrollBurst n r).
Proof.
  intros Hc. induction n as [| n IH]; [exact Hc |].
  rewrite scrollBurst_S. by apply scrollEvent_coherent.
Qed.

Lemma scrollBurst_defers n r :
  handleScrollRuns (scrollBurst n r) = handleScrollRuns r
  /\ tracker (scrollBurst n r) = tracker r
  /\ listening (scrollBurst n r) = listening r.
Proof.
  induction n as [| n (IHruns & IHst & IHl)]; [done |].
  rewrite scrollBurst_S.
  destruct (scrollEvent_defers (scrollBurst n r)) as (-> & -> & ->).
  done.
Qed.


Lemma scrollBurst_sets_ticking n r :
  (1 <= n)%nat -> listening r = true -> ticking (scrollBurst n r) = true.
Proof.
  intros Hn Hl. destruct n as [| n]; [lia |].
  rewrite scrollBurst_S. apply scrollEvent_sets_ticking.
  by destruct (scrollBurst_defers n r) as (_ & _ & ->).
Qed.

(** A frame with nothing queued changes nothing; a frame with one
    callback queued runs [handleScroll] once and clears [ticking]. *)
Lemma animationFrame_idle w r :
  frameQueue r = 0%nat -> animationFrame sections w r = r.
Proof.
  intros Hq. unfold animationFrame.
  destruct r as [st t q l c k]. cbn in *. by subst q.
Qed.

Lemma animationFrame_one w r :
  frameQueue r = 1%nat ->
  animationFrame sections w r
  = {| tracker := commit r (handleScroll sections w (tracker r));
       ticking := false;
       frameQueue := 0;
       listening := listening r;
       commands := commands r;
       handleScrollRuns := S (handleScrollRuns r) |}.
Proof. intros Hq. unfold animationFrame. by rewrite Hq. Qed.

Lemma animationFrame_coherent w r :
  Coherent r -> Coherent (animationFrame sections w r).
Proof.
  unfold Coherent. intros Hc. destruct (ticking r) eqn:Ht.
  - by rewrite animationFrame_one.
  - by rewrite animationFrame_idle, Ht.
Qed.

Lemma perform_coherent a r : Coherent r -> Coherent (perform a r).
Proof. by unfold Coherent. Qed.

Lemma step_coherent r e : Coherent r -> Coherent (step sections r e).
Proof.
  intros Hc. destruct e; cbn.
  - by apply scrollEvent_coherent.
  - by apply animationFrame_coherent.
  - exact Hc.
  - by apply perform_coherent.
  - by apply perform_coherent.
  - by apply perform_coherent.
Qed.

Lemma run_coherent es r : Coherent r -> Coherent (run sections es r).
Proof.
  revert r. induction es as [| e es IH]; intros r Hc; [exact Hc |].
  cbn. apply IH. by apply step_coherent.
Qed.

Lemma mount_coherent : Coherent mount.
Proof. reflexivity. Qed.

(** C3: for every run of [n >= 1] scroll events with no frame in
    between, in any state the mounted component can reach: the events
    themselves run no recomputation, at most one frame callback is
    queued when they are over, so the next frame runs [handleScroll] at
    most once (exactly once while the listener is attached); and with
    [ticking] set [throttledScroll] drops the event, leaving everything
    as it is. *)
Theorem throttledScroll_coalesces
    (es : list Event) (n : nat) (w : Window) :
  (1 <= n)%nat ->
  let r := run sections es mount in
  let r' := scrollBurst n r in
  handleScrollRuns r' = handleScrollRuns r
  /\ (frameQueue r' <= 1)%nat
  /\ (handleScrollRuns (animationFrame sections w r')
      <= S (handleScrollRuns r))%nat
  /\ (listening r = true ->
      handleScrollRuns (animationFrame sections w r')
      = S (handleScrollRuns r))
  /\ (forall r0, ticking r0 = true -> throttledScroll r0 = r0).
Proof.
  intros Hn r r'.
  assert (Hc : Coherent r') by
    (apply scrollBurst_coherent, run_coherent, mount_coherent).
  destruct (scrollBurst_defers n r) as (Hruns & _ & _). fold r' in Hruns.
  split; [exact Hruns |].
  unfold Coherent in Hc.
  split; [destruct (ticking r'); lia |].
  split; [| split; [| exact throttledScroll_dropped]].
  - destruct (ticking r').
    + rewrite animationFrame_one by exact Hc. cbn. lia.
    + rewrite animationFrame_idle by exact Hc. lia.
  - intros Hl.
    rewrite (scrollBurst_sets_ticking n r Hn Hl : ticking r' = true) in Hc.
    rewrite animationFrame_one by exact Hc. cbn. lia.
Qed.

(** After unmount nothing writes the state any more, whatever happens. *)
Lemma step_unmounted r e :
  listening r = false ->
  listening (step sections r e) = false
  /\ tracker (step sections r e) = tracker r.
Proof.
  intros Hl. destruct e as [| w | | w id | resp | v]; cbn [step].
  - by rewrite scrollEvent_detached.
  - unfold animationFrame.
    apply (Nat.iter_invariant (frameQueue r) _ (frameCallback sections w)
             (fun r0 => listening r0 = false /\ tracker r0 = tracker r)).
    + intros r0 [Hl0 Hst0]. unfold frameCallback, commit, mounted; cbn.
      by rewrite Hl0.
    + by cbn.
  - by cbn.
  - unfold perform, commit, mounted; cbn. by rewrite Hl.
  - unfold perform, commit, mounted; cbn. by rewrite Hl.
  - unfold perform, commit, mounted; cbn. by rewrite Hl.
Qed.

Lemma run_unmounted es r :
  listening r = false -> tracker (run sections es r) = tracker r.
Proof.
  revert r. induction es as [| e es IH]; intros r Hl; [reflexivity |].
  destruct (step_unmounted r e Hl) as [Hl' Hst].
  cbn [run fold_left]. unfold run in IH. by rewrite IH, Hst.
Qed.


End ThrottleFacts.

Section ThrottleScenarios.
Import Portfolio.

(** Fifty scroll events fired in a row after mounting: one
    recomputation at the next frame. *)
Lemma throttledScroll_coalesces_witness :
  (1 <= 50)%nat
  /\ handleScrollRuns (scrollBurst 50 mount) = 0%nat
  /\ handleScrollRuns
       (animationFrame sectionsStory (windowAt 0) (scrollBurst 50 mount))
     = 1%nat.
Proof.
  assert (H50 : (1 <= 50)%nat) by lia.
  destruct (throttledScroll_coalesces sectionsStory [] 50 (windowAt 0) H50)
    as (Hruns & _ & _ & Hframe & _).
  split; [exact H50 |]. split; [exact Hruns | exact (Hframe eq_refl)].
Defined.


(** The same frame without the cleanup in between does recompute. *)
Example frame_while_mounted_recomputes :
  let late := animationFrame sectionsStory (windowAt 500)
                (scrollEvent mount) in
  showBackToTop (tracker late) = true
  /\ activeSection (tracker late) = "about".
Proof. vm_compute. by split. Qed.

End ThrottleScenarios.

(* ===================================================================== *)
(** ** Properties of scrollToSection and fetchArticles *)
(* ===================================================================== *)

Section CallbackFacts.
Import Portfolio.

(** [scrollToSection] calls no setter and cannot throw. *)
Lemma scrollToSection_frame (w : Window) (sectionId : string) (st : State) :
  final (scrollToSection w sectionId st) = st
  /\ thrown (scrollToSection w sectionId st) = None.
Proof.
  unfold scrollToSection. by destruct (getElementById w sectionId).
Qed.

(** C4, as the code has it: [scrollToSection] never changes the
    component state and never throws.  For an id present in the
    document it issues one smooth scroll to [offsetTop - 80]; for an id
    that is not present it issues nothing at all: no error is raised
    and nothing is logged. *)
Theorem scrollToSection_spec (w : Window) (sectionId : string) (st : State) :
  let o := scrollToSection w sectionId st in
  final o = st
  /\ thrown o = None
  /\ log o = match getElementById w sectionId with
             | Some element => [ScrollTo (offsetTop element - 80) "smooth"]
             | None => []
             end.
Proof.
  unfold scrollToSection. by destruct (getElementById w sectionId).
Qed.

(** With the three sample sections, "contact" starts at 1600. *)
Example scrollToSection_contact :
  log (scrollToSection (windowAt 0) "contact" initialState)
  = [ScrollTo 1520 "smooth"].
Proof. reflexivity. Qed.

(** C4 as stated fails on its second half: for an id that no element
    carries, nothing is raised and nothing is logged. *)
Lemma scrollToSection_unknown_id_is_silent :
  let o := scrollToSection (windowAt 0) "nonexistent" initialState in
  getElementById (windowAt 0) "nonexistent" = None
  /\ final o = initialState
  /\ log o = []
  /\ ~ Reported o.
Proof.
  cbn zeta. split; [reflexivity |]. split; [reflexivity |].
  split; [reflexivity |].
  intros [Hthrown | (message & error & Hlog)].
  - by apply Hthrown.
  - vm_compute in Hlog. by apply elem_of_nil in Hlog.
Qed.

(** *** The excerpt *)

Lemma length_append (s1 s2 : string) :
  String.length (String.append s1 s2)
  = (String.length s1 + String.length s2)%nat.
Proof. induction s1 as [| c s1 IH]; simpl; [reflexivity | by rewrite IH]. Qed.

Lemma length_substring_le (n m : nat) (s : string) :
  (String.length (String.substring n m s) <= m)%nat.
Proof.
  revert n m. induction s as [| c s IH]; intros n m.
  - destruct n, m; cbn; lia.
  - destruct n as [| n]; cbn.
    + destruct m as [| m]; cbn; [lia |]. specialize (IH 0%nat m). lia.
    + apply IH.
Qed.

(** The scan never makes a string longer. *)
Lemma replaceTags_length (inTag : bool) (s : string) :
  (String.length (replaceTags inTag s) <= String.length s)%nat.
Proof.
  revert inTag. induction s as [| c s IH]; intros inTag; cbn; [lia |].
  destruct inTag.
  - specialize (IH (negb (Ascii.eqb c ">"))). lia.
  - destruct (Ascii.eqb c "<" && hasClosing s).
    + specialize (IH true). lia.
    + cbn. specialize (IH false). lia.
Qed.

(** A string without ["<"] is left as it is. *)
Lemma stripTags_plain (s : string) :
  (forall c, c ∈ list_ascii_of_string s -> c <> "<"%char) ->
  stripTags s = s.
Proof.
  unfold stripTags. induction s as [| c s IH]; cbn; [reflexivity |].
  intros Hplain.
  assert (Hc : Ascii.eqb c "<" = false).
  { apply Ascii.eqb_neq, Hplain. by left. }
  rewrite Hc. cbn. f_equal. apply IH.
  intros c' Hc'. apply Hplain. by right.
Qed.

Example stripTags_markup :
  stripTags "<p>Hello <b>world</b> a < b and 3 > 2 <unclosed"
  = "Hello world a  2 <unclosed".
Proof. reflexivity. Qed.

Lemma formatItem_excerpt (item : Item.t) :
  description (formatItem item)
  = String.append
      (String.substring 0 150 (stripTags (Item.description item))) "..."
  /\ (String.length (description (formatItem item)) <= 153)%nat.
Proof.
  split; [reflexivity |].
  change (description (formatItem item))
    with (String.append
            (String.substring 0 150 (stripTags (Item.description item)))
            "...").
  rewrite length_append.
  pose proof (length_substring_le 0 150
                (stripTags (Item.description item))).
  change (String.length "...") with 3%nat. lia.
Qed.

(** C6: for a response with status "ok" and an items list of any
    length, [fetchArticles] stores the formatted first six items, in
    feed order: at most six articles (six as soon as the feed has six or
    more), each with an excerpt of at most 153 characters. *)
Theorem fetchArticles_truncates (its : list Item.t) (st : State) :
  let o := fetchArticles
             (JsonParsed {| status := "ok"; items := Some its |}) st in
  articles (final o) = map formatItem (take 6 its)
  /\ (length (articles (final o)) <= 6)%nat
  /\ length (articles (final o)) = (6 `min` length its)%nat
  /\ Forall (fun a => (String.length (description a) <= 153)%nat)
       (articles (final o))
  /\ thrown o = None.
Proof.
  cbn zeta.
  assert (Heq : articles
                  (final (fetchArticles
                     (JsonParsed {| status := "ok"; items := Some its |})
                     st))
                = map formatItem (take 6 its)) by reflexivity.
  rewrite Heq, length_map, length_take.
  split; [reflexivity |]. split; [lia |]. split; [reflexivity |].
  split; [| reflexivity].
  apply Forall_map, Forall_forall. intros item _.
  apply formatItem_excerpt.
Qed.

(** Eight items in the feed: six articles, excerpts without markup. *)
Example eight_items_six_articles :
  let o := fetchArticles
             (JsonParsed {| status := "ok";
                            items := Some (replicate 8 sampleItem) |})
             initialState in
  length (articles (final o)) = 6%nat
  /\ (description <$> head (articles (final o))) = Some "Hello world..."
  /\ (thumbnail <$> head (articles (final o))) = Some ""
  /\ articlesView (final o) = GridView.
Proof. vm_compute. by repeat split. Qed.

(** A body that parses but does not say "ok" changes nothing but the
    loading flag, and nothing is logged. *)
Lemma fetchArticles_other_status (data : FeedData) (st : State) :
  status data <> "ok" ->
  let o := fetchArticles (JsonParsed data) st in
  articles (final o) = articles st
  /\ articlesLoading (final o) = false
  /\ log o = [Fetch feedUrl].
Proof.
  intros Hstatus. apply String.eqb_neq in Hstatus.
  unfold fetchArticles, tryFinally, tryCatch, andThen; cbn.
  by rewrite Hstatus.
Qed.

(** C7: when the fetch or the parsing of its body fails,
    [fetchArticles] completes normally: the one request is followed by
    one line on the console and by no second request, the articles are
    left as they were (empty, after mounting, so that the empty state is
    shown), the loading flag is cleared, and the tracker's fields are
    not touched. *)
Theorem fetchArticles_failure_is_contained (e : Error) (st : State) :
  let contained (r : Response) :=
    let o := fetchArticles r st in
    thrown o = None
    /\ log o = [Fetch feedUrl; ConsoleError "Failed to fetch articles:" e]
    /\ articles (final o) = articles st
    /\ articlesLoading (final o) = false
    /\ activeSection (final o) = activeSection st
    /\ showBackToTop (final o) = showBackToTop st
    /\ articles (final (fetchArticles r initialState)) = []
    /\ articlesView (final (fetchArticles r initialState)) = EmptyView in
  contained (FetchRejected e) /\ contained (JsonRejected e).
Proof. cbn zeta. repeat split. Qed.

(** [fetchArticles] never touches the tracker's fields and never
    throws. *)
Lemma fetchArticles_frame (r : Response) (st : State) :
  activeSection (final (fetchArticles r st)) = activeSection st
  /\ showBackToTop (final (fetchArticles r st)) = showBackToTop st
  /\ thrown (fetchArticles r st) = None.
Proof.
  destruct r as [e | e | [status items]]; cbn; [done | done |].
  unfold fetchArticles, tryFinally, tryCatch, andThen; cbn.
  destruct (String.eqb status "ok"), items; by cbn.
Qed.

End CallbackFacts.

Section StripTagsFacts.
Import Portfolio.

(** The four cases of the global replacement of [<[^>]*>]: a character
    other than ["<"] is kept; a ["<"] with no [">"] behind it is kept
    (and so is the rest, see [stripTags_unclosed]); a ["<"] followed by
    [t] without [">"] and then [">"] is removed together with them. *)
Lemma stripTags_char (c : ascii) (s : string) :
  c <> "<"%char -> stripTags (String c s) = String c (stripTags s).
Proof.
  intros Hc. unfold stripTags. cbn.
  apply Ascii.eqb_neq in Hc. by rewrite Hc.
Qed.

Lemma stripTags_unclosed (s : string) :
  hasClosing s = false -> stripTags s = s.
Proof.
  unfold stripTags. induction s as [| c s IH]; cbn; [reflexivity |].
  intros [Hc Hs]%orb_false_iff. rewrite Hs, andb_false_r.
  f_equal. by apply IH.
Qed.

Lemma hasClosing_append (t r : string) :
  hasClosing (String.append t (String ">" r)) = true.
Proof.
  induction t as [| c t IH]; simpl; [reflexivity |].
  rewrite IH. apply orb_true_r.
Qed.

Lemma replaceTags_inside (t r : string) :
  hasClosing t = false ->
  replaceTags true (String.append t (String ">" r)) = replaceTags false r.
Proof.
  induction t as [| c t IH]; simpl; [reflexivity |].
  intros [Hc Ht]%orb_false_iff. rewrite Hc. simpl. by apply IH.
Qed.

Lemma stripTags_tag (t r : string) :
  hasClosing t = false ->
  stripTags (String "<" (String.append t (String ">" r))) = stripTags r.
Proof.
  intros Ht. unfold stripTags. simpl.
  rewrite hasClosing_append. by apply replaceTags_inside.
Qed.

End StripTagsFacts.

(* ===================================================================== *)
(** ** The active section is always a configured one *)
(* ===================================================================== *)

Section ActiveSectionInvariant.
Import Portfolio.

Variable sections : list string.

Lemma perform_tracker a r :
  tracker (perform a r) = commit r (final (a (tracker r))).
Proof. reflexivity. Qed.

Lemma commit_cases r st' :
  commit r st' = st' \/ commit r st' = tracker r.
Proof. unfold commit. destruct (mounted r); [by left | by right]. Qed.

Lemma frameCallback_configured w r :
  Configured sections r -> Configured sections (frameCallback sections w r).
Proof.
  unfold Configured, frameCallback. cbn [tracker]. intros Hin.
  destruct (commit_cases r (handleScroll sections w (tracker r)))
    as [-> | ->]; [| exact Hin].
  destruct (handleScroll_active_cases w sections (tracker r))
    as [-> | [Hcfg _]]; assumption.
Qed.

Lemma animationFrame_configured w r :
  Configured sections r ->
  Configured sections (animationFrame sections w r).
Proof.
  intros Hin. unfold animationFrame.
  apply Nat.iter_invariant; [apply frameCallback_configured | exact Hin].
Qed.

Lemma step_configured r e :
  Configured sections r -> Configured sections (step sections r e).
Proof.
  unfold Configured. intros Hin.
  destruct e as [| w | | w id | resp | v]; unfold step;
    rewrite ?perform_tracker.
  - by destruct (scrollEvent_defers r) as (_ & -> & _).
  - by apply animationFrame_configured.
  - exact Hin.
  - destruct (commit_cases r (final (scrollToSection w id (tracker r))))
      as [-> | ->]; [| exact Hin].
    by destruct (scrollToSection_frame w id (tracker r)) as (-> & _).
  - destruct (commit_cases r (final (fetchArticles resp (tracker r))))
      as [-> | ->]; [| exact Hin].
    by destruct (fetchArticles_frame resp (tracker r)) as (-> & _).
  - destruct (commit_cases r
                (final (update (setMobileMenuOpen v) (tracker r))))
      as [-> | ->]; exact Hin.
Qed.

Lemma run_configured es r :
  Configured sections r -> Configured sections (run sections es r).
Proof.
  revert r. induction es as [| e es IH]; intros r Hin; [exact Hin |].
  cbn. apply IH. by apply step_configured.
Qed.

End ActiveSectionInvariant.

Section ActiveSectionReachable.
Import Portfolio.

(** C9: [activeSection] is a string (there is no null state), it starts
    as "home", the first entry of [sections] on both pages, and each
    recomputation keeps it or replaces it by an entry of [sections];
    hence after any sequence of events it is an entry of [sections]. *)
Theorem activeSection_always_configured :
  (forall es,
     activeSection (tracker (run sectionsStory es mount)) ∈ sectionsStory)
  /\ (forall es,
        activeSection (tracker (run sectionsClassic es mount))
        ∈ sectionsClassic)
  /\ head sectionsStory = Some (activeSection initialState)
  /\ head sectionsClassic = Some (activeSection initialState)
  /\ (forall sections w st,
        activeSection (handleScroll sections w st) = activeSection st
        \/ activeSection (handleScroll sections w st) ∈ sections).
Proof.
  split; [| split; [| split; [reflexivity | split; [reflexivity |]]]].
  - intros es. apply run_configured. by left.
  - intros es. apply run_configured. by left.
  - intros sections w st.
    destruct (handleScroll_active_cases w sections st) as [Heq | [Hin _]];
      [by left | by right].
Qed.

End ActiveSectionReachable.

(* ===================================================================== *)
(** ** The date cache over several calls *)
(* ===================================================================== *)

Section DateCacheFacts.
Import DateUtils DateCalls.

(** Whatever branch a call takes, the variables afterwards hold the date
    it returned. *)
Lemma getCachedDate_records clk c :
  cachedYear (snd (getCachedDate clk c))
  = Some (year (fst (getCachedDate clk c)))
  /\ cachedMonth (snd (getCachedDate clk c))
     = Some (month (fst (getCachedDate clk c))).
Proof.
  unfold getCachedDate.
  destruct (cachedYear c) as [y |] eqn:Hy,
           (cachedMonth c) as [m |] eqn:Hm; try by cbn.
  destruct (now clk - lastCheck c <? 60000); by cbn.
Qed.

(** X1: a call made less than 60 seconds (by [Date.now()]) after the last
    refresh answers with the date of the call before it and leaves the
    variables alone, whatever the clock's calendar says by then; any
    later call reads the clock again. *)
Theorem getCachedDate_second_call (clk1 clk2 : Clock) (c : Cache) :
  let d1 := fst (getCachedDate clk1 c) in
  let c1 := snd (getCachedDate clk1 c) in
  getCachedDate clk2 c1
  = if now clk2 - lastCheck c1 <? 60000 then (d1, c1) else refresh clk2.
Proof.
  cbn zeta. destruct (getCachedDate_records clk1 c) as [Hy Hm].
  destruct (getCachedDate clk1 c) as [[y m] c1]. cbn in *.
  unfold getCachedDate at 1. by rewrite Hy, Hm.
Qed.

Lemma getCachedDate_valid clk c :
  ValidClock clk -> ValidCache c ->
  1 <= month (fst (getCachedDate clk c)) <= 12
  /\ ValidCache (snd (getCachedDate clk c)).
Proof.
  unfold ValidClock, ValidCache, getCachedDate. intros Hclk Hc.
  destruct (cachedYear c) as [y |],
           (cachedMonth c) as [m |] eqn:Hm;
    try (cbn; split; [lia | intros m' [= <-]; lia]).
  destruct (now clk - lastCheck c <? 60000); cbn.
  - split; [by apply Hc | intros m' Hm'; apply Hc; congruence].
  - split; [lia | intros m' [= <-]; lia].
Qed.

Lemma getCachedDates_valid clks c :
  Forall ValidClock clks -> ValidCache c ->
  Forall (fun d => 1 <= month d <= 12) (fst (getCachedDates clks c)).
Proof.
  intros Hclks. revert c.
  induction Hclks as [| clk clks Hclk _ IH]; intros c Hc; cbn; [constructor |].
  destruct (getCachedDate_valid clk c Hclk Hc) as [Hm Hc1].
  destruct (getCachedDate clk c) as [d c1]. cbn in *.
  specialize (IH c1 Hc1).
  destruct (getCachedDates clks c1) as [ds c2]. cbn in *.
  by constructor.
Qed.

(** X2: over any series of calls that starts with the variables unset,
    every date handed out has its month in 1..12, as long as the host's
    [getMonth()] answers 0..11. *)
Theorem getCachedDates_month_in_range (clks : list Clock) :
  Forall ValidClock clks ->
  Forall (fun d => 1 <= month d <= 12)
    (fst (getCachedDates clks initialCache)).
Proof.
  intros Hclks. apply getCachedDates_valid; [exact Hclks |].
  intros m Hm. discriminate Hm.
Qed.

Lemma getCachedDates_month_in_range_witness :
  Forall ValidClock
    [december2025;
     {| now := 1764547230000; fullYear := 2026; monthIndex := 0 |};
     {| now := 1764547290000; fullYear := 2026; monthIndex := 0 |}]
  /\ Forall (fun d => 1 <= month d <= 12)
       (fst (getCachedDates
          [december2025;
           {| now := 1764547230000; fullYear := 2026; monthIndex := 0 |};
           {| now := 1764547290000; fullYear := 2026; monthIndex := 0 |}]
          initialCache)).
Proof.
  assert (Hclks : Forall ValidClock
    [december2025;
     {| now := 1764547230000; fullYear := 2026; monthIndex := 0 |};
     {| now := 1764547290000; fullYear := 2026; monthIndex := 0 |}]).
  { repeat constructor; cbn; lia. }
  split; [exact Hclks |].
  exact (getCachedDates_month_in_range _ Hclks).
Defined.

(** The three calls of the witness: the second is served from the cache
    and still says December 2025, the third re-reads the clock. *)
Example getCachedDates_across_new_year :
  fst (getCachedDates
         [december2025;
          {| now := 1764547230000; fullYear := 2026; monthIndex := 0 |};
          {| now := 1764547290000; fullYear := 2026; monthIndex := 0 |}]
         initialCache)
  = [ {| year := 2025; month := 12 |};
      {| year := 2025; month := 12 |};
      {| year := 2026; month := 1 |} ].
Proof. reflexivity. Qed.

(** X3: an earlier start never gives fewer years: if [(y1, m1)] is not
    later than [(y2, m2)], the years counted from [(y1, m1)] are at least
    those counted from [(y2, m2)] in the same call. *)
Theorem calculateYearsOfExperience_antitone
    (y1 m1 y2 m2 : Z) (clk : Clock) (c : Cache) :
  NotLater y1 m1 y2 m2 ->
  fst (calculateYearsOfExperience y2 (Some m2) clk c)
  <= fst (calculateYearsOfExperience y1 (Some m1) clk c).
Proof.
  unfold NotLater, calculateYearsOfExperience. intros Hle.
  destruct (getCachedDate clk c) as [d c']. cbn.
  destruct (Z.ltb_spec (month d) m1), (Z.ltb_spec (month d) m2); lia.
Qed.

Lemma calculateYearsOfExperience_antitone_witness :
  NotLater 2018 1 2019 10
  /\ fst (calculateYearsOfExperience 2019 (Some 10) december2025
            initialCache)
     <= fst (calculateYearsOfExperience 2018 (Some 1) december2025
               initialCache).
Proof.
  assert (Hle : NotLater 2018 1 2019 10) by (left; lia).
  split; [exact Hle |].
  exact (calculateYearsOfExperience_antitone 2018 1 2019 10 december2025
           initialCache Hle).
Defined.

End DateCacheFacts.

(* ===================================================================== *)
(** ** More on handleScroll and on where a navigation ends *)
(* ===================================================================== *)

Section RecomputationFacts.
Import Portfolio Nav.

(** Which branch the loop takes depends on the window and on the
    sections, not on the state it is given. *)
Lemma sectionLoop_natural w l st st' :
  (sectionLoop w (scrollPosition w) l st = st
   /\ sectionLoop w (scrollPosition w) l st' = st')
  \/ exists s,
       sectionLoop w (scrollPosition w) l st = setActiveSection s st
       /\ sectionLoop w (scrollPosition w) l st' = setActiveSection s st'.
Proof.
  induction l as [| s l IH]; cbn; [by left |].
  destruct (getElementById w s) as [element |]; [| exact IH].
  destruct (inExtent (scrollPosition w) element); [| exact IH].
  right. by exists s.
Qed.

(** X4: [handleScroll] is idempotent: a second recomputation with the
    window unchanged leaves the state of the first. *)
Theorem handleScroll_idempotent
    (sections : list string) (w : Window) (st : State) :
  handleScroll sections w (handleScroll sections w st)
  = handleScroll sections w st.
Proof.
  unfold handleScroll.
  set (b := Qgtb (scrollY w) 300).
  destruct (sectionLoop_natural w sections (setShowBackToTop b st)
              (setShowBackToTop b
                 (sectionLoop w (scrollPosition w) sections
                    (setShowBackToTop b st))))
    as [[H1 H2] | (s & H1 & H2)]; rewrite H2, H1; reflexivity.
Qed.

(** X5: when a recomputation changes the active section, the new one is
    a configured section that is rendered, has a positive height and
    holds the probe position: ids without an element and sections of
    height zero are never selected. *)
Theorem handleScroll_selects_only_visible
    (sections : list string) (w : Window) (st : State) :
  activeSection (handleScroll sections w st) <> activeSection st ->
  exists element,
    activeSection (handleScroll sections w st) ∈ sections
    /\ getElementById w (activeSection (handleScroll sections w st))
       = Some element
    /\ 0 < offsetHeight element
    /\ Contains (scrollPosition w) element.
Proof.
  intros Hchanged.
  destruct (handleScroll_active_cases w sections st)
    as [Hsame | (Hin & element & Hel & Hc)]; [by destruct Hchanged |].
  exists element.
  split; [exact Hin |]. split; [exact Hel |]. split; [| exact Hc].
  destruct (Z.lt_ge_cases 0 (offsetHeight element)) as [Hpos | Hle];
    [exact Hpos |].
  destruct (degenerate_never_contains _ _ Hle Hc).
Qed.

Lemma handleScroll_selects_only_visible_witness :
  activeSection
    (handleScroll ["home"; "about"; "contact"] (windowAt 550) initialState)
  <> activeSection initialState
  /\ exists element,
       activeSection
         (handleScroll ["home"; "about"; "contact"] (windowAt 550)
            initialState)
       ∈ ["home"; "about"; "contact"]
       /\ getElementById (windowAt 550)
            (activeSection
               (handleScroll ["home"; "about"; "contact"] (windowAt 550)
                  initialState))
          = Some element
       /\ 0 < offsetHeight element
       /\ Contains (scrollPosition (windowAt 550)) element.
Proof.
  assert (Hchanged :
    activeSection
      (handleScroll ["home"; "about"; "contact"] (windowAt 550)
         initialState)
    <> activeSection initialState) by (vm_compute; discriminate).
  split; [exact Hchanged |].
  exact (handleScroll_selects_only_visible ["home"; "about"; "contact"]
           (windowAt 550) initialState Hchanged).
Defined.

Lemma settled_contains_iff w element :
  Contains (scrollPosition (settledAt w (offsetTop element - 80))) element
  <-> 160 <= innerHeight w
      /\ innerHeight w - 160 < 2 * offsetHeight element.
Proof.
  unfold Contains, scrollPosition, settledAt; cbn.
  unfold Qle, Qlt, Qdiv, Qplus, Qmult, Qinv, inject_Z; cbn. lia.
Qed.

(** First occurrence: when [s] is the only match, nothing in front of it
    matches. *)
Lemma unique_match_is_first w sections s :
  s ∈ sections ->
  (forall s', s' ∈ sections -> Matches w s' -> s' = s) ->
  exists pre post,
    sections = pre ++ s :: post /\ forall s', s' ∈ pre -> ~ Matches w s'.
Proof.
  intros Hs Huniq.
  destruct (list_elem_of_split_l _ _ Hs) as (pre & post & Hsplit & Hfresh).
  exists pre, post. split; [exact Hsplit |].
  intros s' Hs' Hm'. apply Hfresh.
  rewrite <- (Huniq s'); [exact Hs' | | exact Hm'].
  rewrite Hsplit. apply elem_of_app. by left.
Qed.

(** X6: where a navigation ends.  [scrollToSection] asks for
    [offsetTop - 80]; once the page rests there, the recomputation makes
    the target the active section provided the window is at least 160
    pixels high, the target is higher than [innerHeight / 2 - 80], and no
    other configured section holds the probe. *)
Theorem scrollToSection_converges
    (sections : list string) (w : Window) (target : string)
    (element : Element) (st : State) :
  target ∈ sections ->
  getElementById w target = Some element ->
  160 <= innerHeight w ->
  innerHeight w - 160 < 2 * offsetHeight element ->
  (forall s, s ∈ sections ->
     Matches (settledAt w (offsetTop element - 80)) s -> s = target) ->
  log (scrollToSection w target st)
  = [ScrollTo (offsetTop element - 80) "smooth"]
  /\ activeSection
       (handleScroll sections (settledAt w (offsetTop element - 80))
          (final (scrollToSection w target st)))
     = target.
Proof.
  intros Hin Hel Hh Hheight Huniq.
  split; [unfold scrollToSection; by rewrite Hel |].
  destruct (unique_match_is_first _ _ _ Hin Huniq)
    as (pre & post & Hsplit & Hpre).
  apply (handleScroll_first_match _ sections pre target post);
    [exact Hsplit | exact Hpre |].
  exists element. split; [exact Hel |].
  by apply settled_contains_iff.
Qed.

(** X7: where a navigation does not end.  In a window lower than 160
    pixels, or for a target no higher than [innerHeight / 2 - 80], the
    probe of the page at rest lies outside the target: the recomputation
    there does not make the target active. *)
Theorem scrollToSection_misses_short_section
    (sections : list string) (w : Window) (target : string)
    (element : Element) (st : State) :
  getElementById w target = Some element ->
  innerHeight w < 160 \/ 2 * offsetHeight element <= innerHeight w - 160 ->
  activeSection st <> target ->
  activeSection
    (handleScroll sections (settledAt w (offsetTop element - 80)) st)
  <> target.
Proof.
  intros Hel Hshort Hother Hactive.
  destruct (handleScroll_active_cases
              (settledAt w (offsetTop element - 80)) sections st)
    as [Hsame | (_ & element' & Hel' & Hc)]; [congruence |].
  rewrite Hactive in Hel'.
  assert (element' = element) as ->
    by (unfold getElementById in *; cbn in Hel'; congruence).
  apply settled_contains_iff in Hc. lia.
Qed.

End RecomputationFacts.

Section NavigationScenarios.
Import Portfolio Nav.

(** From the top of the three sample sections to "about": the page rests
    at 720, the probe at 1020. *)
Lemma scrollToSection_converges_witness :
  log (scrollToSection (windowAt 0) "about" initialState)
  = [ScrollTo 720 "smooth"]
  /\ activeSection
       (handleScroll ["home"; "about"; "contact"]
          (settledAt (windowAt 0) 720)
          (final (scrollToSection (windowAt 0) "about" initialState)))
     = "about".
Proof.
  apply (scrollToSection_converges ["home"; "about"; "contact"]
           (windowAt 0) "about"
           {| offsetTop := 800; offsetHeight := 800 |} initialState).
  - apply elem_of_cons. right. apply elem_of_cons. by left.
  - reflexivity.
  - cbn. lia.
  - cbn. lia.
  - intros s Hs Hm. apply matchesb_true in Hm.
    repeat (apply elem_of_cons in Hs as [-> | Hs]);
      [.. | by apply elem_of_nil in Hs];
      vm_compute in Hm; first [discriminate Hm | reflexivity].
Defined.

(** A section 100 pixels high in a window 600 high: the page rests at
    920, the probe at 1220 is already in the section below. *)
Lemma scrollToSection_misses_short_section_witness :
  activeSection
    (handleScroll ["home"; "about"; "contact"]
       (settledAt
          {| scrollY := 0; innerHeight := 600; document := shortMiddle |}
          920)
       initialState)
  <> "about".
Proof.
  apply (scrollToSection_misses_short_section ["home"; "about"; "contact"]
           {| scrollY := 0; innerHeight := 600; document := shortMiddle |}
           "about" {| offsetTop := 1000; offsetHeight := 100 |}
           initialState).
  - reflexivity.
  - right. cbn. lia.
  - cbn. discriminate.
Defined.

Example short_section_is_skipped :
  activeSection
    (handleScroll ["home"; "about"; "contact"]
       (settledAt
          {| scrollY := 0; innerHeight := 600; document := shortMiddle |}
          920)
       initialState)
  = "contact".
Proof. vm_compute. reflexivity. Qed.

End NavigationScenarios.

(* ===================================================================== *)
(** ** Recomputations along a trace of events *)
(* ===================================================================== *)

Section TraceFacts.
Import Portfolio Trace.

Variable sections : list string.

Lemma countScrolls_cons e es :
  countScrolls (e :: es)
  = ((if isScroll e then 1 else 0) + countScrolls es)%nat.
Proof. unfold countScrolls. cbn. by destruct (isScroll e). Qed.

Lemma countFrames_cons e es :
  countFrames (e :: es)
  = ((if isFrame e then 1 else 0) + countFrames es)%nat.
Proof. unfold countFrames. cbn. by destruct (isFrame e). Qed.

(** One event: a scroll event may queue a callback, a frame turns a
    queued callback into one recomputation, nothing else moves either
    number. *)
Lemma step_bounds r e :
  Coherent r ->
  (handleScrollRuns (step sections r e) + frameQueue (step sections r e)
   <= handleScrollRuns r + frameQueue r + (if isScroll e then 1 else 0))%nat
  /\ (handleScrollRuns (step sections r e)
      <= handleScrollRuns r + (if isFrame e then 1 else 0))%nat.
Proof.
  unfold Coherent. intros Hc.
  destruct e as [| w | | w id | resp | v]; cbn [step isScroll isFrame];
    try (cbn; lia).
  - unfold scrollEvent, throttledScroll.
    destruct (listening r), (ticking r); cbn; lia.
  - destruct (ticking r).
    + rewrite animationFrame_one by exact Hc. cbn. lia.
    + rewrite animationFrame_idle by exact Hc. lia.
Qed.

Lemma run_bounds es r :
  Coherent r ->
  (handleScrollRuns (run sections es r) + frameQueue (run sections es r)
   <= handleScrollRuns r + frameQueue r + countScrolls es)%nat
  /\ (handleScrollRuns (run sections es r)
      <= handleScrollRuns r + countFrames es)%nat.
Proof.
  revert r. induction es as [| e es IH]; intros r Hc.
  - cbn. unfold countScrolls, countFrames. cbn. lia.
  - rewrite countScrolls_cons, countFrames_cons. cbn [run fold_left].
    destruct (step_bounds r e Hc) as [Hs Hf].
    destruct (IH (step sections r e) (step_coherent sections r e Hc))
      as [IHs IHf].
    unfold run in *. lia.
Qed.

(** X8: along any trace of events from mounting, [handleScroll] has run
    at most once per rendered frame, and at most once per scroll event:
    there are never more recomputations than frames, nor than scroll
    events. *)
Theorem recomputations_bounded (es : list Event) :
  (handleScrollRuns (run sections es mount) <= countFrames es)%nat
  /\ (handleScrollRuns (run sections es mount) <= countScrolls es)%nat.
Proof.
  destruct (run_bounds es mount mount_coherent) as [Hs Hf].
  cbn in Hs, Hf. lia.
Qed.

(** Without a callback queued, an event other than a scroll event leaves
    the tracker's two fields and the throttle as they are. *)
Lemma step_idle r e :
  isScroll e = false -> frameQueue r = 0%nat ->
  frameQueue (step sections r e) = 0%nat
  /\ handleScrollRuns (step sections r e) = handleScrollRuns r
  /\ activeSection (tracker (step sections r e)) = activeSection (tracker r)
  /\ showBackToTop (tracker (step sections r e)) = showBackToTop (tracker r).
Proof.
  intros He Hq.
  destruct e as [| w | | w id | resp | v]; try discriminate He;
    cbn [step].
  - by rewrite animationFrame_idle.
  - by cbn.
  - rewrite perform_tracker.
    destruct (commit_cases r (final (scrollToSection w id (tracker r))))
      as [-> | ->]; [| by cbn].
    destruct (scrollToSection_frame w id (tracker r)) as [-> _]. by cbn.
  - rewrite perform_tracker.
    destruct (commit_cases r (final (fetchArticles resp (tracker r))))
      as [-> | ->]; [| by cbn].
    destruct (fetchArticles_frame resp (tracker r)) as (-> & -> & _).
    by cbn.
  - rewrite perform_tracker.
    destruct (commit_cases r
                (final (update (setMobileMenuOpen v) (tracker r))))
      as [-> | ->]; by cbn.
Qed.

Lemma run_idle es r :
  countScrolls es = 0%nat -> frameQueue r = 0%nat ->
  handleScrollRuns (run sections es r) = handleScrollRuns r
  /\ activeSection (tracker (run sections es r)) = activeSection (tracker r)
  /\ showBackToTop (tracker (run sections es r))
     = showBackToTop (tracker r).
Proof.
  revert r. induction es as [| e es IH]; intros r Hes Hq; [done |].
  rewrite countScrolls_cons in Hes.
  assert (He : isScroll e = false) by (destruct (isScroll e); [lia | done]).
  rewrite He in Hes.
  destruct (step_idle r e He Hq) as (Hq' & Hruns & Hactive & Hshow).
  destruct (IH (step sections r e) Hes Hq') as (IHruns & IHactive & IHshow).
  cbn [run fold_left]. unfold run in *.
  rewrite IHruns, IHactive, IHshow. done.
Qed.

(** X9: mounting runs no recomputation, and nothing does until the user
    scrolls: along a trace without scroll events, wherever the page
    stands at its frames, the active section stays "home" and the
    back-to-top button stays hidden. *)
Theorem idle_until_first_scroll (es : list Event) :
  countScrolls es = 0%nat ->
  handleScrollRuns (run sections es mount) = 0%nat
  /\ activeSection (tracker (run sections es mount)) = "home"
  /\ showBackToTop (tracker (run sections es mount)) = false.
Proof.
  intros Hes. by destruct (run_idle es mount Hes eq_refl) as (-> & -> & ->).
Qed.

Lemma run_app es1 es2 r :
  run sections (es1 ++ es2) r = run sections es2 (run sections es1 r).
Proof. unfold run. apply fold_left_app. Qed.

Lemma run_scrolls n r :
  run sections (replicate n ScrollEvent) r = scrollBurst n r.
Proof.
  revert r. induction n as [| n IH]; intros r; [reflexivity |].
  cbn [replicate run fold_left step]. unfold run in IH. rewrite IH.
  unfold scrollBurst. by rewrite Nat.iter_succ, Nat.iter_swap.
Qed.

(** One cycle of the armed throttle: the burst queues one callback, the
    frame runs it on the window of the frame and arms the throttle
    again. *)
Lemma run_cycle n w r :
  (1 <= n)%nat ->
  listening r = true -> ticking r = false -> frameQueue r = 0%nat ->
  let r' := run sections (cycle (n, w)) r in
  listening r' = true /\ ticking r' = false /\ frameQueue r' = 0%nat
  /\ handleScrollRuns r' = S (handleScrollRuns r)
  /\ tracker r' = handleScroll sections w (tracker r).
Proof.
  intros Hn Hl Ht Hq. cbn zeta. unfold cycle. cbn [fst snd].
  rewrite run_app, run_scrolls. cbn [run fold_left step].
  assert (Hc : Coherent (scrollBurst n r)).
  { apply scrollBurst_coherent. unfold Coherent. by rewrite Ht. }
  unfold Coherent in Hc.
  rewrite (scrollBurst_sets_ticking n r Hn Hl) in Hc.
  destruct (scrollBurst_defers n r) as (Hruns & Hst & Hl').
  rewrite animationFrame_one by exact Hc.
  unfold commit, mounted. cbn.
  rewrite Hruns, Hst, Hl', Hl. done.
Qed.

Lemma run_cycles ps r :
  Forall (fun p => (1 <= fst p)%nat) ps ->
  listening r = true -> ticking r = false -> frameQueue r = 0%nat ->
  handleScrollRuns (run sections (cycles ps) r)
  = (handleScrollRuns r + length ps)%nat
  /\ tracker (run sections (cycles ps) r)
     = recompute sections ps (tracker r).
Proof.
  intros Hps. revert r.
  induction Hps as [| [n w] ps Hn _ IH]; intros r Hl Ht Hq.
  - cbn. split; [lia | reflexivity].
  - unfold cycles. cbn [map concat]. rewrite run_app.
    destruct (run_cycle n w r Hn Hl Ht Hq) as (Hl' & Ht' & Hq' & Hruns & Hst).
    destruct (IH _ Hl' Ht' Hq') as [IHruns IHst].
    unfold cycles in IHruns, IHst. rewrite IHruns, IHst, Hruns, Hst.
    split; [cbn; lia | reflexivity].
Qed.

(** X10: bursts of scroll events, each followed by a frame: however many
    events each burst has (at least one), there is exactly one
    recomputation per frame, and the state at the end is that of running
    [handleScroll] on the windows of the frames in turn: dropping the
    surplus events loses nothing. *)
Theorem cycles_recompute_once_per_frame (ps : list (nat * Window)) :
  Forall (fun p => (1 <= fst p)%nat) ps ->
  handleScrollRuns (run sections (cycles ps) mount) = length ps
  /\ tracker (run sections (cycles ps) mount)
     = recompute sections ps initialState.
Proof.
  intros Hps.
  destruct (run_cycles ps mount Hps eq_refl eq_refl eq_refl) as [Hruns Hst].
  split; [exact Hruns | exact Hst].
Qed.

End TraceFacts.

Section TraceScenarios.
Import Portfolio Trace.

(** Frames, a navigation click and a settled fetch, but no scroll
    event. *)
Lemma idle_until_first_scroll_witness :
  countScrolls
    [AnimationFrame (windowAt 2000); ScrollToSection (windowAt 0) "contact";
     FetchArticles (FetchRejected TypeError); AnimationFrame (windowAt 900)]
  = 0%nat
  /\ activeSection
       (tracker
          (run sectionsStory
             [AnimationFrame (windowAt 2000);
              ScrollToSection (windowAt 0) "contact";
              FetchArticles (FetchRejected TypeError);
              AnimationFrame (windowAt 900)]
             mount))
     = "home".
Proof.
  split; [reflexivity |].
  destruct (idle_until_first_scroll sectionsStory
              [AnimationFrame (windowAt 2000);
               ScrollToSection (windowAt 0) "contact";
               FetchArticles (FetchRejected TypeError);
               AnimationFrame (windowAt 900)]
              eq_refl) as (_ & Hactive & _).
  exact Hactive.
Defined.

(** Fifty events and a frame at 550, three events and a frame at 2200. *)
Lemma cycles_recompute_once_per_frame_witness :
  Forall (fun p : nat * Window => (1 <= fst p)%nat)
    [(50%nat, windowAt 550); (3%nat, windowAt 2200)]
  /\ handleScrollRuns
       (run sectionsStory
          (cycles [(50%nat, windowAt 550); (3%nat, windowAt 2200)]) mount)
     = 2%nat.
Proof.
  assert (Hps : Forall (fun p : nat * Window => (1 <= fst p)%nat)
                  [(50%nat, windowAt 550); (3%nat, windowAt 2200)]).
  { repeat constructor; cbn; lia. }
  split; [exact Hps |].
  destruct (cycles_recompute_once_per_frame sectionsStory
              [(50%nat, windowAt 550); (3%nat, windowAt 2200)] Hps)
    as [Hruns _].
  exact Hruns.
Defined.

End TraceScenarios.

(* ===================================================================== *)
(** ** The navigation buttons of the single-page component *)
(* ===================================================================== *)

Section NavFacts.
Import Portfolio Nav.

(** X11: story page, in every state the mounted component can reach:
    of the nav-links buttons exactly one carries the class "active", the
    one at the position of the active section in [sections]; while the
    mobile menu is closed no other button is active; while it is open
    the hamburger is active too, and of the mobile-menu buttons exactly
    the one at the same position. *)
Theorem story_active_buttons (es : list Event) :
  let st := tracker (run sectionsStory es mount) in
  exists index item,
    sectionsStory !! index = Some (activeSection st)
    /\ navItemsStory !! index = Some item
    /\ activeButtons (renderNavStory st)
       = NavLink item
         :: (if mobileMenuOpen st
             then [Hamburger; MobileMenuLink item] else []).
Proof.
  cbn zeta.
  assert (Hin : Configured sectionsStory (run sectionsStory es mount))
    by (apply run_configured; by left).
  unfold Configured in Hin. unfold renderNavStory.
  remember (activeSection (tracker (run sectionsStory es mount))) as a
    eqn:Ha. clear Ha.
  remember (mobileMenuOpen (tracker (run sectionsStory es mount))) as m
    eqn:Hm. clear Hm.
  unfold sectionsStory in Hin.
  repeat (apply elem_of_cons in Hin as [-> | Hin]);
    [exists 0%nat, "Prologue" | exists 1%nat, "Story"
     | exists 2%nat, "Journey" | exists 3%nat, "Works"
     | exists 4%nat, "Services" | exists 5%nat, "Articles"
     | exists 6%nat, "Epilogue" | by apply elem_of_nil in Hin];
    (split; [reflexivity | split; [reflexivity | by destruct m]]).
Qed.

(** X12: earlier page, in every reachable state: of the nav-links
    buttons exactly one is active, the one whose lower-cased label is
    the active section; while the mobile menu is closed no other button
    is active; while it is open the hamburger is active too, and of the
    mobile-menu buttons exactly the one with the same label. *)
Theorem classic_active_buttons (es : list Event) :
  let st := tracker (run sectionsClassic es mount) in
  exists item,
    item ∈ navItemsClassic
    /\ toLowerCase item = activeSection st
    /\ activeButtons (renderNavClassic st)
       = NavLink item
         :: (if mobileMenuOpen st
             then [Hamburger; MobileMenuLink item] else []).
Proof.
  cbn zeta.
  assert (Hin : Configured sectionsClassic (run sectionsClassic es mount))
    by (apply run_configured; by left).
  unfold Configured in Hin. unfold renderNavClassic.
  remember (activeSection (tracker (run sectionsClassic es mount))) as a
    eqn:Ha. clear Ha.
  remember (mobileMenuOpen (tracker (run sectionsClassic es mount))) as m
    eqn:Hm. clear Hm.
  unfold sectionsClassic in Hin.
  repeat (apply elem_of_cons in Hin as [-> | Hin]);
    [exists "Home" | exists "About" | exists "Experience"
     | exists "Education" | exists "Projects" | exists "Services"
     | exists "Contact" | by apply elem_of_nil in Hin];
    (split; [unfold navItemsClassic; set_solver
            | split; [reflexivity | by destruct m]]).
Qed.

(** The menu can be open in a reachable state: both lists are then
    rendered. *)
Example story_menu_open_after_scrolling :
  activeButtons
    (renderNavStory
       (tracker
          (run sectionsStory
             [SetMobileMenuOpen true; ScrollEvent;
              AnimationFrame (windowAt 550)]
             mount)))
  = [NavLink "Story"; Hamburger; MobileMenuLink "Story"].
Proof. vm_compute. reflexivity. Qed.

(** X13: story page: every rendered navigation button (an index into
    [navItems]) hands [scrollToSection] a configured section id, never
    [undefined]; the click scrolls to that section if it is rendered,
    closes the mobile menu and leaves the active section to the scroll
    handler. *)
Theorem handleNavClickStory_targets_section
    (w : Window) (index : nat) (st : State) :
  (index < length navItemsStory)%nat ->
  let o := handleNavClickStory w index st in
  sectionsStory !! index = Some (sectionAt sectionsStory index)
  /\ log o = log (scrollToSection w (sectionAt sectionsStory index) st)
  /\ mobileMenuOpen (final o) = false
  /\ activeSection (final o) = activeSection st
  /\ thrown o = None.
Proof.
  intros Hindex. cbn zeta.
  assert (Hlookup :
    sectionsStory !! index = Some (sectionAt sectionsStory index)).
  { unfold sectionAt.
    destruct (sectionsStory !! index) as [s |] eqn:Hs; [reflexivity |].
    apply lookup_ge_None in Hs. cbn in Hs, Hindex. lia. }
  split; [exact Hlookup |].
  unfold handleNavClickStory, andThen.
  destruct (scrollToSection_frame w (sectionAt sectionsStory index) st)
    as [Hfinal Hthrown].
  rewrite Hthrown. cbn. rewrite Hfinal, app_nil_r. done.
Qed.

Lemma handleNavClickStory_targets_section_witness :
  (3 < length navItemsStory)%nat
  /\ log (handleNavClickStory (windowAt 0) 3
            (setMobileMenuOpen true initialState))
     = log (scrollToSection (windowAt 0) "works"
              (setMobileMenuOpen true initialState))
  /\ mobileMenuOpen
       (final (handleNavClickStory (windowAt 0) 3
                 (setMobileMenuOpen true initialState)))
     = false.
Proof.
  assert (Hindex : (3 < length navItemsStory)%nat) by (cbn; lia).
  split; [exact Hindex |].
  destruct (handleNavClickStory_targets_section (windowAt 0) 3
              (setMobileMenuOpen true initialState) Hindex)
    as (_ & Hlog & Hmenu & _).
  split; [exact Hlog | exact Hmenu].
Defined.

(** X14: earlier page: every navigation label, lower-cased, is a
    configured section id; the click of the mobile menu scrolls to it if
    it is rendered, closes the menu and leaves the active section to the
    scroll handler. *)
Theorem handleNavClickClassic_targets_section
    (w : Window) (item : string) (st : State) :
  item ∈ navItemsClassic ->
  let o := handleNavClickClassic w item st in
  toLowerCase item ∈ sectionsClassic
  /\ log o = log (scrollToSection w (toLowerCase item) st)
  /\ mobileMenuOpen (final o) = false
  /\ activeSection (final o) = activeSection st
  /\ thrown o = None.
Proof.
  intros Hitem. cbn zeta. split.
  - unfold navItemsClassic in Hitem.
    repeat (apply elem_of_cons in Hitem as [-> | Hitem]);
      [.. | by apply elem_of_nil in Hitem];
      vm_compute; set_solver.
  - unfold handleNavClickClassic, closeMobileMenu, andThen.
    destruct (scrollToSection_frame w (toLowerCase item) st)
      as [Hfinal Hthrown].
    rewrite Hthrown. cbn. rewrite Hfinal, app_nil_r. done.
Qed.

Lemma handleNavClickClassic_targets_section_witness :
  "Projects" ∈ navItemsClassic
  /\ toLowerCase "Projects" ∈ sectionsClassic
  /\ mobileMenuOpen
       (final (handleNavClickClassic (windowAt 0) "Projects"
                 (setMobileMenuOpen true initialState)))
     = false.
Proof.
  assert (Hitem : "Projects" ∈ navItemsClassic)
    by (unfold navItemsClassic; set_solver).
  split; [exact Hitem |].
  destruct (handleNavClickClassic_targets_section (windowAt 0) "Projects"
              (setMobileMenuOpen true initialState) Hitem)
    as (Hsection & _ & Hmenu & _).
  split; [exact Hsection | exact Hmenu].
Defined.

End NavFacts.

(* ===================================================================== *)
(** ** More on fetchArticles and on the excerpt *)
(* ===================================================================== *)

Section FeedFacts.
Import Portfolio Markup.

(** A body that parsed: the request, and the articles if the body says
    so. *)
Lemma fetchArticles_parsed (data : FeedData) (st : State) :
  fetchArticles (JsonParsed data) st
  = {| final :=
         setArticlesLoading false
           (match (if String.eqb (status data) "ok"
                   then items data else None) with
            | Some its =>
                setArticles (map formatItem (take 6 its))
                  (setArticlesLoading true st)
            | None => setArticlesLoading true st
            end);
       log := [Fetch feedUrl];
       thrown := None |}.
Proof.
  unfold fetchArticles, tryFinally, tryCatch, andThen; cbn.
  by destruct (if String.eqb (status data) "ok" then items data else None).
Qed.

(** X15: however the request settles, [fetchArticles] completes without
    an exception, has asked for the feed exactly once, has logged at most
    the one failure, leaves the loading flag cleared (so the spinner is
    never left on screen) and does not touch the tracker or the menu. *)
Theorem fetchArticles_always_settles (r : Response) (st : State) :
  let o := fetchArticles r st in
  thrown o = None
  /\ articlesLoading (final o) = false
  /\ articlesView (final o) <> LoadingView
  /\ (log o = [Fetch feedUrl]
      \/ exists e,
           log o = [Fetch feedUrl; ConsoleError "Failed to fetch articles:" e])
  /\ activeSection (final o) = activeSection st
  /\ showBackToTop (final o) = showBackToTop st
  /\ mobileMenuOpen (final o) = mobileMenuOpen st.
Proof.
  cbn zeta.
  assert (Hview : forall st', articlesLoading st' = false ->
                              articlesView st' <> LoadingView).
  { intros st' Hl. unfold articlesView. rewrite Hl.
    by destruct (0 <? length (articles st'))%nat. }
  destruct r as [e | e | data].
  - split; [done |]. split; [done |]. split; [by apply Hview |].
    split; [right; by exists e | done].
  - split; [done |]. split; [done |]. split; [by apply Hview |].
    split; [right; by exists e | done].
  - rewrite fetchArticles_parsed.
    split; [done |]. split; [done |]. split; [by apply Hview |].
    split; [by left |].
    by destruct (if String.eqb (status data) "ok"
                 then items data else None).
Qed.

(** X16: what the articles section shows once the request has settled
    after mounting: the grid exactly when the body parsed, said "ok" and
    listed at least one item; in every other case (a failure, another
    status, no items field, an empty list) the empty state. *)
Theorem articlesView_after_fetch (r : Response) :
  articlesView (final (fetchArticles r initialState))
  = match r with
    | JsonParsed data =>
        if String.eqb (status data) "ok"
        then match items data with
             | Some (_ :: _) => GridView
             | _ => EmptyView
             end
        else EmptyView
    | _ => EmptyView
    end.
Proof.
  destruct r as [e | e | data]; [reflexivity | reflexivity |].
  rewrite fetchArticles_parsed.
  destruct (String.eqb (status data) "ok"); [| reflexivity].
  destruct (items data) as [[| item its] |]; reflexivity.
Qed.

(** X17: the stored articles follow the feed, position by position: the
    article at [i < 6] is the formatted item at [i], and there is none at
    [i >= 6]. *)
Theorem fetchArticles_keeps_feed_order
    (its : list Item.t) (st : State) (i : nat) :
  articles
    (final (fetchArticles
              (JsonParsed {| status := "ok"; items := Some its |}) st))
  !! i
  = if (i <? 6)%nat then formatItem <$> its !! i else None.
Proof.
  change (articles
            (final (fetchArticles
                      (JsonParsed {| status := "ok"; items := Some its |})
                      st)))
    with (formatItem <$> take 6 its).
  rewrite list_lookup_fmap.
  destruct (Nat.ltb_spec i 6).
  - by rewrite lookup_take_lt.
  - by rewrite lookup_take_ge.
Qed.

(** What the scan lets through was in the input. *)
Lemma hasClosing_replaceTags inTag s :
  hasClosing (replaceTags inTag s) = true -> hasClosing s = true.
Proof.
  revert inTag. induction s as [| c s IH]; intros inTag; cbn; [done |].
  destruct inTag.
  - intros H. apply IH in H. rewrite H. apply orb_true_r.
  - destruct (Ascii.eqb c "<" && hasClosing s).
    + intros H. apply IH in H. rewrite H. apply orb_true_r.
    + cbn. intros [Hc | H]%orb_true_iff.
      * by rewrite Hc.
      * apply IH in H. rewrite H. apply orb_true_r.
Qed.

Lemma containsTag_replaceTags inTag s :
  containsTag (replaceTags inTag s) = false.
Proof.
  revert inTag. induction s as [| c s IH]; intros inTag; cbn; [done |].
  destruct inTag; [apply IH |].
  destruct (Ascii.eqb c "<") eqn:Hc; cbn.
  - destruct (hasClosing s) eqn:Hs; [apply IH |].
    cbn. rewrite Hc, IH, orb_false_r. cbn.
    destruct (hasClosing (replaceTags false s)) eqn:Hout; [| done].
    apply hasClosing_replaceTags in Hout. congruence.
  - by rewrite Hc, IH.
Qed.

Lemma hasClosing_prefix n s :
  hasClosing (String.substring 0 n s) = true -> hasClosing s = true.
Proof.
  revert n. induction s as [| c s IH]; intros [| n]; cbn; try done.
  intros [Hc | H]%orb_true_iff.
  - by rewrite Hc.
  - apply IH in H. rewrite H. apply orb_true_r.
Qed.

Lemma containsTag_prefix n s :
  containsTag s = false -> containsTag (String.substring 0 n s) = false.
Proof.
  revert n. induction s as [| c s IH]; intros [| n]; cbn; try done.
  intros [Hhead Htail]%orb_false_iff.
  rewrite (IH n Htail), orb_false_r.
  destruct (Ascii.eqb c "<"); [| done]. cbn in *.
  destruct (hasClosing (String.substring 0 n s)) eqn:Hp; [| done].
  apply hasClosing_prefix in Hp. congruence.
Qed.

Lemma hasClosing_ellipsis s :
  hasClosing (String.append s "...") = hasClosing s.
Proof. induction s as [| c s IH]; simpl; [done | by rewrite IH]. Qed.

Lemma containsTag_ellipsis s :
  containsTag (String.append s "...") = containsTag s.
Proof.
  induction s as [| c s IH]; simpl; [done |].
  by rewrite IH, hasClosing_ellipsis.
Qed.

Lemma stripTags_without_tag s : containsTag s = false -> stripTags s = s.
Proof.
  unfold stripTags. induction s as [| c s IH]; cbn; [done |].
  intros [Hhead Htail]%orb_false_iff. rewrite Hhead.
  f_equal. by apply IH.
Qed.

(** X18: no excerpt contains a tag: whatever the description of the
    item, the text stored for it has no ["<"] with a [">"] behind it. *)
Theorem excerpt_has_no_tag (item : Item.t) :
  containsTag (description (formatItem item)) = false.
Proof.
  change (description (formatItem item))
    with (String.append
            (String.substring 0 150 (stripTags (Item.description item)))
            "...").
  rewrite containsTag_ellipsis. apply containsTag_prefix.
  apply containsTag_replaceTags.
Qed.

(** X19: stripping is idempotent: stripped text has no tag left, and
    stripping it again changes nothing. *)
Theorem stripTags_idempotent (s : string) :
  containsTag (stripTags s) = false
  /\ stripTags (stripTags s) = stripTags s.
Proof.
  assert (Hclean : containsTag (stripTags s) = false)
    by apply containsTag_replaceTags.
  split; [exact Hclean | by apply stripTags_without_tag].
Qed.

Lemma substring_all n s :
  (String.length s <= n)%nat -> String.substring 0 n s = s.
Proof.
  revert n. induction s as [| c s IH]; intros [| n]; cbn; try done; try lia.
  intros Hlen. f_equal. apply IH. lia.
Qed.

Lemma length_substring_prefix n s :
  String.length (String.substring 0 n s) = (n `min` String.length s)%nat.
Proof.
  revert n. induction s as [| c s IH]; intros [| n]; cbn; try done.
  by rewrite IH.
Qed.

(** X20: the exact shape of an excerpt.  The three dots are appended
    whether or not anything was cut: text of at most 150 characters
    (after stripping) is kept whole and followed by the dots, longer text
    is cut to 150 characters and followed by the dots, so the length is
    [min 150 (length text) + 3]. *)
Theorem excerpt_shape (item : Item.t) :
  let text := stripTags (Item.description item) in
  description (formatItem item)
  = String.append
      (if (String.length text <=? 150)%nat
       then text else String.substring 0 150 text)
      "..."
  /\ String.length (description (formatItem item))
     = ((150 `min` String.length text) + 3)%nat.
Proof.
  cbn zeta.
  change (description (formatItem item))
    with (String.append
            (String.substring 0 150 (stripTags (Item.description item)))
            "...").
  split.
  - destruct (Nat.leb_spec
                (String.length (stripTags (Item.description item))) 150)
      as [Hshort | Hlong]; [by rewrite substring_all | reflexivity].
  - by rewrite length_append, length_substring_prefix.
Qed.

(** A description that is only markup leaves the three dots. *)
Example excerpt_of_markup_only :
  description
    (formatItem
       {| Item.title := "t"; Item.link := "l"; Item.pubDate := "d";
          Item.description := "<figure><img src=x></figure>";
          Item.thumbnail := Some ""; Item.categories := None |})
  = "...".
Proof. reflexivity. Qed.

End FeedFacts.

(* ===================================================================== *)
(** ** Properties of cn *)
(* ===================================================================== *)

Section CnFacts.
Import Utils.

Lemma kept_app l1 l2 : kept (l1 ++ l2) = kept l1 ++ kept l2.
Proof.
  induction l1 as [| x l1 IH]; [reflexivity |].
  destruct x as [[| c s] | | |]; cbn; by rewrite ?IH.
Qed.

Lemma kept_nonempty l : Forall (fun s => s <> EmptyString) (kept l).
Proof.
  induction l as [| x l IH]; [constructor |].
  destruct x as [[| c s] | | |]; cbn; try exact IH.
  by constructor.
Qed.

Lemma kept_Str s rest :
  kept (Str s :: rest)
  = match s with EmptyString => kept rest | _ => s :: kept rest end.
Proof. by destruct s. Qed.

Lemma kept_nil_iff l :
  kept l = [] <-> Forall (fun x => truthy x = false) l.
Proof.
  induction l as [| x l IH]; [by split; [constructor |] |].
  destruct x as [[| c s] | | |]; cbn; rewrite Forall_cons; cbn;
    try (rewrite IH; tauto).
  split; [discriminate | intros [Hx _]; discriminate Hx].
Qed.

Lemma join_empty_iff sep l :
  Forall (fun s => s <> EmptyString) l ->
  join sep l = EmptyString <-> l = [].
Proof.
  intros Hl. split; [| by intros ->].
  destruct Hl as [| s l Hs Hl]; [done |].
  destruct s as [| c s]; [done |].
  destruct l; discriminate.
Qed.

Lemma append_associative (a b c : string) :
  String.append (String.append a b) c
  = String.append a (String.append b c).
Proof.
  induction a as [| x a IH]; [done |].
  change (String x (String.append (String.append a b) c)
          = String x (String.append a (String.append b c))).
  by rewrite IH.
Qed.

Lemma join_app sep l1 l2 :
  l1 <> [] -> l2 <> [] ->
  join sep (l1 ++ l2)
  = String.append (join sep l1) (String.append sep (join sep l2)).
Proof.
  intros H1 H2. induction l1 as [| s l1 IH]; [done |].
  destruct l1 as [| s' l1].
  - destruct l2; [done | reflexivity].
  - change (join sep ((s :: s' :: l1) ++ l2))
      with (String.append s
              (String.append sep (join sep ((s' :: l1) ++ l2)))).
    rewrite IH by done.
    change (join sep (s :: s' :: l1))
      with (String.append s (String.append sep (join sep (s' :: l1)))).
    by rewrite !append_associative.
Qed.

(** X21: class lists can be built in pieces: joining two partial results
    with [cn] gives what one call on all the arguments gives; an empty
    partial result adds no space. *)
Theorem cn_flattens (l1 l2 : list ClassValue) :
  cn [Str (cn l1); Str (cn l2)] = cn (l1 ++ l2).
Proof.
  unfold cn. rewrite kept_app, !kept_Str.
  pose proof (join_empty_iff " " (kept l1) (kept_nonempty l1)) as H1.
  pose proof (join_empty_iff " " (kept l2) (kept_nonempty l2)) as H2.
  destruct (join " " (kept l1)) as [| c1 s1] eqn:Hj1.
  - rewrite (proj1 H1 eq_refl). cbn [app kept].
    by destruct (join " " (kept l2)).
  - assert (Hne1 : kept l1 <> []) by (intros He; by apply H1 in He).
    destruct (join " " (kept l2)) as [| c2 s2] eqn:Hj2.
    + rewrite (proj1 H2 eq_refl), app_nil_r. by rewrite Hj1.
    + assert (Hne2 : kept l2 <> []) by (intros He; by apply H2 in He).
      rewrite join_app by done. by rewrite Hj1, Hj2.
Qed.

(** X22: [cn] gives the empty string exactly when no argument is a
    non-empty string: [undefined], [null], [false] and [""] leave no
    trace, not even a space. *)
Theorem cn_empty_iff (classes : list ClassValue) :
  cn classes = EmptyString
  <-> Forall (fun x => truthy x = false) classes.
Proof.
  unfold cn. rewrite join_empty_iff by apply kept_nonempty.
  apply kept_nil_iff.
Qed.

Example cn_mixed :
  cn [Str "btn"; Undefined; Str ""; Utils.False; Str "active"; Null]
  = "btn active".
Proof. reflexivity. Qed.

End CnFacts.

(* ===================================================================== *)
(** ** Properties of the route navigation *)
(* ===================================================================== *)

Section NavigationFacts.
Import Navigation.


End NavigationFacts.
